(** * The drive-by-wire node of [ros/src/twist_controller/dbw_node.py]

    A shallow embedding of class [DBWNode]: its fields, its three subscriber
    callbacks, [publish] and the body of [loop], written in a small monad
    that threads the node object, records every externally visible effect
    (log lines, controller calls, published messages, the pacing sleep) in
    order, and lets an exception raised by the controller propagate.

    Two models of a run.  In the step model ([step], [run]) a run is a
    sequence of complete callback invocations, complete loop iterations and
    the shutdown signal.  In the interleaving model ([act], [interleave])
    the same methods run in pieces, one field read, call, publish or
    callback statement group at a time, and the pieces of the main thread
    and of the callback threads are interleaved freely; every run of the
    step model is the interleaving in which the pieces of each step run back
    to back ([run_is_uninterrupted]).  What depends on a callback being
    handled in the middle of a loop turn, or on the loop reading the node in
    the middle of a callback, is stated on the interleaving model.

    The calls into rospy ([loginfo], [publish], [Rate.sleep]) and
    [Controller.reset] are taken to return normally; [Controller.control]
    may raise. *)

From Stdlib Require Import List Bool ZArith Lia.
From Stdlib Require Import Floats.
From Stdlib Require String.
Import ListNotations.

Local Open Scope Z_scope.

(** ** Messages *)

(** [std_msgs/Bool]. *)
Module std_msgs.
Record Bool : Type := mkBool { data : bool }.
End std_msgs.

(** [geometry_msgs/TwistStamped]; the header is never read by the node. *)
Module geometry_msgs.
Record Vector3 : Type := mkVector3 { x : float; y : float; z : float }.
Record Twist : Type := mkTwist { linear : Vector3; angular : Vector3 }.
Record TwistStamped : Type := mkTwistStamped { twist : Twist }.
End geometry_msgs.

(** Modelled from the spec: the message classes of [dbw_mkz_msgs] are not part
    of the sources; each record keeps the fields [publish] assigns, and [new]
    is the freshly constructed message (flag off, no command type, zero). *)
Module ThrottleCmd.
Inductive cmd_type : Type := CMD_NONE | CMD_PERCENT.
Record t : Type := mk { enable : bool; pedal_cmd_type : cmd_type; pedal_cmd : float }.
Definition new : t := mk false CMD_NONE 0%float.
Definition set_enable (v : bool) (m : t) : t := mk v (pedal_cmd_type m) (pedal_cmd m).
Definition set_pedal_cmd_type (v : cmd_type) (m : t) : t := mk (enable m) v (pedal_cmd m).
Definition set_pedal_cmd (v : float) (m : t) : t := mk (enable m) (pedal_cmd_type m) v.
End ThrottleCmd.

Module SteeringCmd.
Record t : Type := mk { enable : bool; steering_wheel_angle_cmd : float }.
Definition new : t := mk false 0%float.
Definition set_enable (v : bool) (m : t) : t := mk v (steering_wheel_angle_cmd m).
Definition set_steering_wheel_angle_cmd (v : float) (m : t) : t := mk (enable m) v.
End SteeringCmd.

Module BrakeCmd.
Inductive cmd_type : Type := CMD_NONE | CMD_TORQUE.
Record t : Type := mk { enable : bool; pedal_cmd_type : cmd_type; pedal_cmd : float }.
Definition new : t := mk false CMD_NONE 0%float.
Definition set_enable (v : bool) (m : t) : t := mk v (pedal_cmd_type m) (pedal_cmd m).
Definition set_pedal_cmd_type (v : cmd_type) (m : t) : t := mk (enable m) v (pedal_cmd m).
Definition set_pedal_cmd (v : float) (m : t) : t := mk (enable m) (pedal_cmd_type m) v.
End BrakeCmd.

(** ** Effects *)

(** What the node does to the outside world, in program order. *)
Inductive Event : Type :=
| EvLogDbwEnabled (enabled : bool)
| EvLogVeer (ang : option float) (count : Z)
| EvReset
| EvControl (lin ang cur : option float)
| EvThrottle (m : ThrottleCmd.t)
| EvSteering (m : SteeringCmd.t)
| EvBrake (m : BrakeCmd.t)
| EvSleep (hz : float).

Definition is_command (e : Event) : bool :=
  match e with
  | EvThrottle _ | EvSteering _ | EvBrake _ => true
  | _ => false
  end.

Definition is_reset (e : Event) : bool :=
  match e with EvReset => true | _ => false end.

Definition is_sleep (e : Event) : bool :=
  match e with EvSleep _ => true | _ => false end.

Definition is_log (e : Event) : bool :=
  match e with EvLogDbwEnabled _ | EvLogVeer _ _ => true | _ => false end.

Definition commands (evs : list Event) : list Event := filter is_command evs.

Definition count_resets (evs : list Event) : nat := length (filter is_reset evs).

Definition count_sleeps (evs : list Event) : nat := length (filter is_sleep evs).

(** The three messages of one [publish] call, in the order it sends them. *)
Definition actuator_command (throttle brake steer : float) : list Event :=
  [ EvThrottle (ThrottleCmd.mk true ThrottleCmd.CMD_PERCENT throttle);
    EvSteering (SteeringCmd.mk true steer);
    EvBrake (BrakeCmd.mk true BrakeCmd.CMD_TORQUE brake) ].

(** How a call ends: it returns a value or raises. *)
Inductive Completion (E A : Type) : Type :=
| Normal (a : A)
| Raise (e : E).
Arguments Normal {E A} a.
Arguments Raise {E A} e.

(** Python's [<>] on two floats: IEEE inequality, true as soon as one side
    is a NaN. *)
Definition float_ne (a b : float) : bool := negb (PrimFloat.eqb a b).

(** [<>] on field values: [None] differs from every float and equals itself. *)
Definition py_ne (a b : option float) : bool :=
  match a, b with
  | Some u, Some v => float_ne u v
  | None, None => false
  | _, _ => true
  end.

(** ** What the environment does to the node *)

(** One step of a run: a message handed to its subscriber callback, one
    evaluation of the loop condition followed (when it holds) by the loop
    body, or the shutdown request after which [rospy.is_shutdown()] is true. *)
Inductive Input : Type :=
| DbwEnabledMsg (msg : std_msgs.Bool)
| CurrentVelocityMsg (msg : geometry_msgs.TwistStamped)
| TwistCmdMsg (msg : geometry_msgs.TwistStamped)
| Iterate
| ShutdownSignal.

Definition is_twist_cmd (i : Input) : bool :=
  match i with TwistCmdMsg _ => true | _ => false end.

Definition is_iterate (i : Input) : bool :=
  match i with Iterate => true | _ => false end.

Definition is_current_velocity (i : Input) : bool :=
  match i with CurrentVelocityMsg _ => true | _ => false end.

(** The enable-signal values of a schedule, in delivery order. *)
Definition enable_values (sched : list Input) : list bool :=
  flat_map (fun i => match i with DbwEnabledMsg msg => [std_msgs.data msg] | _ => [] end)
           sched.

(** The spec's reading of a reset-worthy event: the number of
    enabled-to-disabled transitions in a sequence of enable-signal values,
    starting from the state [prev]. *)
Fixpoint falling_edges (prev : bool) (signals : list bool) : nat :=
  match signals with
  | [] => 0%nat
  | b :: rest => ((if prev && negb b then 1 else 0) + falling_edges b rest)%nat
  end.

(** The target pair carried by a [/twist_cmd] message, and the pair left by
    the latest such message of a schedule ([init] when there is none). *)
Definition target_of_msg (msg : geometry_msgs.TwistStamped)
  : option float * option float :=
  (Some (geometry_msgs.x (geometry_msgs.linear (geometry_msgs.twist msg))),
   Some (geometry_msgs.z (geometry_msgs.angular (geometry_msgs.twist msg)))).

Fixpoint latest_target (init : option float * option float) (sched : list Input)
  : option float * option float :=
  match sched with
  | [] => init
  | TwistCmdMsg msg :: rest => latest_target (target_of_msg msg) rest
  | _ :: rest => latest_target init rest
  end.

Definition is_None {A : Type} (v : option A) : bool :=
  match v with None => true | Some _ => false end.

(** ** Test doubles for the controller and concrete inputs *)

Module Stub.
Inductive Fault : Type := ControlFault.
(** A controller whose state counts the [control] calls since the last
    [reset] and which always answers (0.0, 0.0, 0.0). *)
Definition control (calls : nat) (lin ang cur : option float)
  : nat * Completion Fault (float * float * float) :=
  (S calls, Normal (0%float, 0%float, 0%float)).
(** A controller whose [control] always raises. *)
Definition faulty_control (calls : nat) (lin ang cur : option float)
  : nat * Completion Fault (float * float * float) :=
  (S calls, Raise ControlFault).
Definition reset (calls : nat) : nat := 0%nat.
End Stub.

Definition enable_msg (b : bool) : Input := DbwEnabledMsg (std_msgs.mkBool b).

Definition velocity_msg (lin_x ang_z : float) : geometry_msgs.TwistStamped :=
  geometry_msgs.mkTwistStamped
    (geometry_msgs.mkTwist (geometry_msgs.mkVector3 lin_x 0%float 0%float)
                           (geometry_msgs.mkVector3 0%float 0%float ang_z)).

(** Enable, a target of 5.0 m/s straight ahead, a measured 5.0 m/s. *)
Definition ready_inputs : list Input :=
  [ enable_msg true;
    TwistCmdMsg (velocity_msg 5%float 0%float);
    CurrentVelocityMsg (velocity_msg 5%float 0%float) ].

(** Enable, disable, and the disable message repeated. *)
Definition noisy_disable : list Input :=
  [ enable_msg true; enable_msg false; enable_msg false ].

(** Both velocities delivered and the loop turning, but no enable message. *)
Definition unauthorized_inputs : list Input :=
  [ TwistCmdMsg (velocity_msg 5%float 0%float);
    CurrentVelocityMsg (velocity_msg 5%float 0%float);
    Iterate ].

(** The ready node whose target is then replaced by 7.0 m/s, 1.0 rad/s. *)
Definition retargeted_inputs : list Input :=
  ready_inputs ++ [ TwistCmdMsg (velocity_msg 7%float 1%float) ].

Section Node.

(** The controller of [twist_controller.py] is an external collaborator: the
    node only constructs it, calls [control] and calls [reset].  [control]
    may change the controller and either returns the triple
    (throttle, brake, steer) or raises. *)
Variable ControllerState : Type.
Variable Exn : Type.
Variable controller_control :
  ControllerState -> option float -> option float -> option float ->
  ControllerState * Completion Exn (float * float * float).
Variable controller_reset : ControllerState -> ControllerState.

(** The fields of a [DBWNode] object; [None] is Python's [None]. *)
Record DBWNode : Type := mkDBWNode {
  required_vel_linear : option float;
  required_vel_angular : option float;
  current_vel_linear : option float;
  last_required_vel_angular : option float;
  count_required_vel_angular : Z;
  dbw_enabled : bool;
  sampling_rate : float;
  controller : ControllerState
}.

Definition set_required_vel_linear (v : option float) (n : DBWNode) : DBWNode :=
  mkDBWNode v (required_vel_angular n) (current_vel_linear n)
            (last_required_vel_angular n) (count_required_vel_angular n)
            (dbw_enabled n) (sampling_rate n) (controller n).

Definition set_required_vel_angular (v : option float) (n : DBWNode) : DBWNode :=
  mkDBWNode (required_vel_linear n) v (current_vel_linear n)
            (last_required_vel_angular n) (count_required_vel_angular n)
            (dbw_enabled n) (sampling_rate n) (controller n).

Definition set_current_vel_linear (v : option float) (n : DBWNode) : DBWNode :=
  mkDBWNode (required_vel_linear n) (required_vel_angular n) v
            (last_required_vel_angular n) (count_required_vel_angular n)
            (dbw_enabled n) (sampling_rate n) (controller n).

Definition set_last_required_vel_angular (v : option float) (n : DBWNode) : DBWNode :=
  mkDBWNode (required_vel_linear n) (required_vel_angular n) (current_vel_linear n)
            v (count_required_vel_angular n)
            (dbw_enabled n) (sampling_rate n) (controller n).

Definition set_count_required_vel_angular (v : Z) (n : DBWNode) : DBWNode :=
  mkDBWNode (required_vel_linear n) (required_vel_angular n) (current_vel_linear n)
            (last_required_vel_angular n) v
            (dbw_enabled n) (sampling_rate n) (controller n).

Definition set_dbw_enabled (v : bool) (n : DBWNode) : DBWNode :=
  mkDBWNode (required_vel_linear n) (required_vel_angular n) (current_vel_linear n)
            (last_required_vel_angular n) (count_required_vel_angular n)
            v (sampling_rate n) (controller n).

Definition set_controller (v : ControllerState) (n : DBWNode) : DBWNode :=
  mkDBWNode (required_vel_linear n) (required_vel_angular n) (current_vel_linear n)
            (last_required_vel_angular n) (count_required_vel_angular n)
            (dbw_enabled n) (sampling_rate n) v.

(** ** The method monad

    A method body takes the object, and yields how it completed, the object
    as it left it, and the effects it performed.  After a raise the object
    and the effects performed so far stay as they are. *)
Definition M (A : Type) : Type :=
  DBWNode -> Completion Exn A * DBWNode * list Event.

Definition ret {A : Type} (a : A) : M A := fun self => (Normal a, self, []).

Definition bind {A B : Type} (c : M A) (k : A -> M B) : M B :=
  fun self =>
    match c self with
    | (Normal a, self1, ev1) =>
        match k a self1 with
        | (r, self2, ev2) => (r, self2, ev1 ++ ev2)
        end
    | (Raise e, self1, ev1) => (Raise e, self1, ev1)
    end.

Definition get : M DBWNode := fun self => (Normal self, self, []).

Definition modify (f : DBWNode -> DBWNode) : M unit :=
  fun self => (Normal tt, f self, []).

Definition emit (e : Event) : M unit := fun self => (Normal tt, self, [e]).

Notation "x <- c ;; k" := (bind c (fun x => k))
  (at level 61, c at next level, right associativity).
Notation "c ;; k" := (bind c (fun _ => k))
  (at level 61, right associativity).

(** [self.controller.control(...)]: the call is recorded, the controller is
    left as the call left it, and the call's completion is the method's. *)
Definition call_control (lin ang cur : option float) : M (float * float * float) :=
  fun self =>
    match controller_control (controller self) lin ang cur with
    | (c, r) => (r, set_controller c self, [EvControl lin ang cur])
    end.

(** [self.controller.reset()]. *)
Definition call_reset : M unit :=
  fun self =>
    (Normal tt, set_controller (controller_reset (controller self)) self, [EvReset]).

(** ** The methods of [DBWNode] *)

(** The fields as [__init__] leaves them (lines 37-47), around the controller
    object [c] built at lines 49-59. *)
Definition DBWNode_init (c : ControllerState) : DBWNode :=
  {| required_vel_linear := None;
     required_vel_angular := None;
     current_vel_linear := None;
     last_required_vel_angular := Some 0%float;
     count_required_vel_angular := 0;
     dbw_enabled := false;
     sampling_rate := 50%float;
     controller := c |}.

(** Lines 90-107. *)
Definition publish (throttle brake steer : float) : M unit :=
  let tcmd := ThrottleCmd.new in
  let tcmd := ThrottleCmd.set_enable true tcmd in
  let tcmd := ThrottleCmd.set_pedal_cmd_type ThrottleCmd.CMD_PERCENT tcmd in
  let tcmd := ThrottleCmd.set_pedal_cmd throttle tcmd in
  emit (EvThrottle tcmd) ;;
  let scmd := SteeringCmd.new in
  let scmd := SteeringCmd.set_enable true scmd in
  let scmd := SteeringCmd.set_steering_wheel_angle_cmd steer scmd in
  emit (EvSteering scmd) ;;
  let bcmd := BrakeCmd.new in
  let bcmd := BrakeCmd.set_enable true bcmd in
  let bcmd := BrakeCmd.set_pedal_cmd_type BrakeCmd.CMD_TORQUE bcmd in
  let bcmd := BrakeCmd.set_pedal_cmd brake bcmd in
  emit (EvBrake bcmd).

(** The test of lines 78-79. *)
Definition not_ready (self : DBWNode) : bool :=
  is_None (current_vel_linear self)
  || is_None (required_vel_linear self)
  || negb (dbw_enabled self).

(** The body of the [while] of [loop], lines 78-88; [rate] is the frequency
    of the [rospy.Rate] made at line 76.  [continue] ends the body at once. *)
Definition loop_body (rate : float) : M unit :=
  self <- get ;;
  if not_ready self then
    ret tt
  else
    r <- call_control (required_vel_linear self)
                      (required_vel_angular self)
                      (current_vel_linear self) ;;
    let '(throttle, brake, steer) := r in
    publish throttle brake steer ;;
    emit (EvSleep rate).

(** Lines 109-115. *)
Definition dbw_enabled_cb (msg : std_msgs.Bool) : M unit :=
  modify (set_dbw_enabled (std_msgs.data msg)) ;;
  self <- get ;;
  emit (EvLogDbwEnabled (dbw_enabled self)) ;;
  if negb (dbw_enabled self) then call_reset else ret tt.

(** Lines 117-119. *)
Definition current_velocity_cb (msg : geometry_msgs.TwistStamped) : M unit :=
  modify (set_current_vel_linear
            (Some (geometry_msgs.x (geometry_msgs.linear (geometry_msgs.twist msg))))).

(** Lines 121-131. *)
Definition twist_cmd_cb (msg : geometry_msgs.TwistStamped) : M unit :=
  modify (set_required_vel_linear
            (Some (geometry_msgs.x (geometry_msgs.linear (geometry_msgs.twist msg))))) ;;
  modify (set_required_vel_angular
            (Some (geometry_msgs.z (geometry_msgs.angular (geometry_msgs.twist msg))))) ;;
  self <- get ;;
  (if py_ne (required_vel_angular self) (last_required_vel_angular self) then
     emit (EvLogVeer (required_vel_angular self) (count_required_vel_angular self)) ;;
     modify (set_count_required_vel_angular 0)
   else ret tt) ;;
  self <- get ;;
  modify (set_last_required_vel_angular (required_vel_angular self)) ;;
  self <- get ;;
  modify (set_count_required_vel_angular (count_required_vel_angular self + 1)).

(** ** The running node *)

(** Where the main thread is: inside the [while] of [loop] with the rate
    made at line 76, past it after a shutdown, or gone with an exception
    nobody caught. *)
Inductive MainThread : Type :=
| InLoop (rate : float)
| Returned
| Uncaught (e : Exn).

Record System : Type := mkSystem {
  node : DBWNode;
  is_shutdown : bool;
  main : MainThread
}.

(** The node once [__init__] has reached [self.loop()] (line 73) and [loop]
    has made its rate (line 76). *)
Definition boot (c : ControllerState) : System :=
  {| node := DBWNode_init c;
     is_shutdown := false;
     main := InLoop (sampling_rate (DBWNode_init c)) |}.

(** A subscriber callback run to completion on the node. *)
Definition deliver (cb : M unit) (sys : System) : System * list Event :=
  match cb (node sys) with
  | (_, self, evs) => (mkSystem self (is_shutdown sys) (main sys), evs)
  end.

(** One turn of [while not rospy.is_shutdown(): ...] (line 77): the condition
    is read once, before the body; a raise in the body leaves the loop. *)
Definition iterate (sys : System) : System * list Event :=
  match main sys with
  | InLoop rate =>
      if is_shutdown sys then
        (mkSystem (node sys) (is_shutdown sys) Returned, [])
      else
        match loop_body rate (node sys) with
        | (Normal _, self, evs) => (mkSystem self (is_shutdown sys) (InLoop rate), evs)
        | (Raise e, self, evs) => (mkSystem self (is_shutdown sys) (Uncaught e), evs)
        end
  | Returned | Uncaught _ => (sys, [])
  end.

Definition step (i : Input) (sys : System) : System * list Event :=
  match i with
  | DbwEnabledMsg msg => deliver (dbw_enabled_cb msg) sys
  | CurrentVelocityMsg msg => deliver (current_velocity_cb msg) sys
  | TwistCmdMsg msg => deliver (twist_cmd_cb msg) sys
  | Iterate => iterate sys
  | ShutdownSignal => (mkSystem (node sys) true (main sys), [])
  end.

(** A whole schedule, with the effects of its steps in order. *)
Fixpoint run (sched : list Input) (sys : System) : System * list Event :=
  match sched with
  | [] => (sys, [])
  | i :: rest =>
      match step i sys with
      | (sys1, ev1) =>
          match run rest sys1 with
          | (sys2, ev2) => (sys2, ev1 ++ ev2)
          end
      end
  end.

Definition state_after (sched : list Input) (sys : System) : System :=
  fst (run sched sys).

Definition trace (sched : list Input) (sys : System) : list Event :=
  snd (run sched sys).

(** Whether the main thread is no longer inside the loop. *)
Definition loop_left (sys : System) : bool :=
  match main sys with InLoop _ => false | _ => true end.

(** The target pair held by the node, and the pair a message carries. *)
Definition target_fields (self : DBWNode) : option float * option float :=
  (required_vel_linear self, required_vel_angular self).

(** What one turn of the loop can be: nothing at all, a full active tick, or
    a controller fault. *)
Inductive TickShape (sys : System) : System * list Event -> Prop :=
| TickIdle : TickShape sys (sys, [])
| TickExit rate :
    main sys = InLoop rate -> is_shutdown sys = true ->
    TickShape sys (mkSystem (node sys) true Returned, [])
| TickActive rate c throttle brake steer :
    main sys = InLoop rate -> is_shutdown sys = false ->
    not_ready (node sys) = false ->
    TickShape sys
      (mkSystem (set_controller c (node sys)) false (InLoop rate),
       EvControl (required_vel_linear (node sys)) (required_vel_angular (node sys))
                 (current_vel_linear (node sys))
       :: actuator_command throttle brake steer ++ [EvSleep rate])
| TickFault rate c e :
    main sys = InLoop rate -> is_shutdown sys = false ->
    not_ready (node sys) = false ->
    TickShape sys
      (mkSystem (set_controller c (node sys)) false (Uncaught e),
       [EvControl (required_vel_linear (node sys)) (required_vel_angular (node sys))
                  (current_vel_linear (node sys))]).

(** ** Basic facts about schedules *)

Lemma run_app (a b : list Input) (sys : System) :
  run (a ++ b) sys =
  (state_after b (state_after a sys), trace a sys ++ trace b (state_after a sys)).
Proof.
  unfold state_after, trace. revert sys.
  induction a as [|i a IH]; intros sys; simpl.
  - destruct (run b sys); reflexivity.
  - destruct (step i sys) as [sys1 ev1]. rewrite IH.
    destruct (run a sys1) as [sys2 ev2]; simpl.
    now rewrite app_assoc.
Qed.

Lemma state_after_app (a b : list Input) (sys : System) :
  state_after (a ++ b) sys = state_after b (state_after a sys).
Proof. unfold state_after at 1. now rewrite run_app. Qed.


Lemma state_after_nil (sys : System) : state_after [] sys = sys.
Proof. reflexivity. Qed.

Lemma state_after_cons (i : Input) (rest : list Input) (sys : System) :
  state_after (i :: rest) sys = state_after rest (fst (step i sys)).
Proof.
  unfold state_after; simpl. destruct (step i sys) as [sys1 ev1]; simpl.
  now destruct (run rest sys1).
Qed.

Lemma trace_cons (i : Input) (rest : list Input) (sys : System) :
  trace (i :: rest) sys = snd (step i sys) ++ trace rest (fst (step i sys)).
Proof.
  unfold trace; simpl. destruct (step i sys) as [sys1 ev1]; simpl.
  now destruct (run rest sys1).
Qed.

Lemma commands_app (a b : list Event) : commands (a ++ b) = commands a ++ commands b.
Proof. apply filter_app. Qed.

Lemma count_resets_app (a b : list Event) :
  count_resets (a ++ b) = (count_resets a + count_resets b)%nat.
Proof. unfold count_resets. now rewrite filter_app, length_app. Qed.

(** ** The loop body, case by case *)

Lemma loop_body_skip (rate : float) (self : DBWNode) :
  not_ready self = true -> loop_body rate self = (Normal tt, self, []).
Proof. intros H. unfold loop_body, bind, get. now rewrite H. Qed.

Lemma loop_body_active (rate : float) (self : DBWNode) (c : ControllerState)
      (throttle brake steer : float) :
  not_ready self = false ->
  controller_control (controller self) (required_vel_linear self)
                     (required_vel_angular self) (current_vel_linear self)
  = (c, Normal (throttle, brake, steer)) ->
  loop_body rate self =
  (Normal tt, set_controller c self,
   EvControl (required_vel_linear self) (required_vel_angular self)
             (current_vel_linear self)
   :: actuator_command throttle brake steer ++ [EvSleep rate]).
Proof.
  intros Hready Hctl. unfold loop_body, bind, get, call_control.
  rewrite Hready, Hctl. reflexivity.
Qed.

Lemma loop_body_fault (rate : float) (self : DBWNode) (c : ControllerState) (e : Exn) :
  not_ready self = false ->
  controller_control (controller self) (required_vel_linear self)
                     (required_vel_angular self) (current_vel_linear self)
  = (c, Raise e) ->
  loop_body rate self =
  (Raise e, set_controller c self,
   [EvControl (required_vel_linear self) (required_vel_angular self)
              (current_vel_linear self)]).
Proof.
  intros Hready Hctl. unfold loop_body, bind, get, call_control.
  rewrite Hready, Hctl. reflexivity.
Qed.

Lemma iterate_shape (sys : System) : TickShape sys (iterate sys).
Proof.
  destruct sys as [self sd m]. unfold iterate; simpl.
  destruct m as [rate| |e]; try apply TickIdle.
  destruct sd.
  - exact (TickExit (mkSystem self true (InLoop rate)) rate eq_refl eq_refl).
  - destruct (not_ready self) eqn:Hready.
    + rewrite (loop_body_skip _ _ Hready). apply TickIdle.
    + destruct (controller_control (controller self) (required_vel_linear self)
                  (required_vel_angular self) (current_vel_linear self))
        as [c [[[throttle brake] steer]|e]] eqn:Hctl.
      * rewrite (loop_body_active _ _ _ _ _ _ Hready Hctl).
        exact (TickActive (mkSystem self false (InLoop rate)) rate c throttle brake steer
                          eq_refl eq_refl Hready).
      * rewrite (loop_body_fault _ _ _ _ Hready Hctl).
        exact (TickFault (mkSystem self false (InLoop rate)) rate c e
                         eq_refl eq_refl Hready).
Qed.

(** ** The callbacks, evaluated *)

Lemma dbw_enabled_cb_run (msg : std_msgs.Bool) (self : DBWNode) :
  dbw_enabled_cb msg self =
  (Normal tt,
   (if std_msgs.data msg then set_dbw_enabled true self
    else set_controller (controller_reset (controller self))
                        (set_dbw_enabled false self)),
   EvLogDbwEnabled (std_msgs.data msg)
   :: (if std_msgs.data msg then [] else [EvReset])).
Proof.
  unfold dbw_enabled_cb, bind, modify, get, emit, call_reset, ret; simpl.
  destruct (std_msgs.data msg); reflexivity.
Qed.

Lemma current_velocity_cb_run (msg : geometry_msgs.TwistStamped) (self : DBWNode) :
  current_velocity_cb msg self =
  (Normal tt,
   set_current_vel_linear
     (Some (geometry_msgs.x (geometry_msgs.linear (geometry_msgs.twist msg)))) self,
   []).
Proof. reflexivity. Qed.

Lemma twist_cmd_cb_run (msg : geometry_msgs.TwistStamped) (self : DBWNode) :
  twist_cmd_cb msg self =
  (Normal tt,
   mkDBWNode
     (Some (geometry_msgs.x (geometry_msgs.linear (geometry_msgs.twist msg))))
     (Some (geometry_msgs.z (geometry_msgs.angular (geometry_msgs.twist msg))))
     (current_vel_linear self)
     (Some (geometry_msgs.z (geometry_msgs.angular (geometry_msgs.twist msg))))
     (if py_ne (Some (geometry_msgs.z (geometry_msgs.angular (geometry_msgs.twist msg))))
               (last_required_vel_angular self)
      then 1 else count_required_vel_angular self + 1)
     (dbw_enabled self) (sampling_rate self) (controller self),
   if py_ne (Some (geometry_msgs.z (geometry_msgs.angular (geometry_msgs.twist msg))))
            (last_required_vel_angular self)
   then [EvLogVeer (Some (geometry_msgs.z (geometry_msgs.angular (geometry_msgs.twist msg))))
                   (count_required_vel_angular self)]
   else []).
Proof.
  unfold twist_cmd_cb, bind, modify, get, emit, ret; cbn -[py_ne Z.add].
  destruct (py_ne _ (last_required_vel_angular self)); reflexivity.
Qed.

(** ** How one step moves the gate inputs *)

Lemma iterate_node (sys : System) :
  exists c, node (fst (iterate sys)) = set_controller c (node sys).
Proof.
  destruct (iterate_shape sys); simpl; try (eexists; reflexivity);
    exists (controller (node sys)); now destruct (node sys).
Qed.

Lemma step_required (i : Input) (sys : System) :
  is_None (required_vel_linear (node (fst (step i sys)))) =
  is_None (required_vel_linear (node sys)) && negb (is_twist_cmd i).
Proof.
  destruct i as [msg|msg|msg| |]; unfold step, deliver.
  - rewrite dbw_enabled_cb_run; simpl.
    destruct (std_msgs.data msg); simpl; now rewrite andb_true_r.
  - rewrite current_velocity_cb_run; simpl. now rewrite andb_true_r.
  - rewrite twist_cmd_cb_run; simpl. now rewrite andb_false_r.
  - destruct (iterate_node sys) as [c ->]; simpl. now rewrite andb_true_r.
  - simpl. now rewrite andb_true_r.
Qed.

Lemma step_current (i : Input) (sys : System) :
  is_None (current_vel_linear (node (fst (step i sys)))) =
  is_None (current_vel_linear (node sys)) && negb (is_current_velocity i).
Proof.
  destruct i as [msg|msg|msg| |]; unfold step, deliver.
  - rewrite dbw_enabled_cb_run; simpl.
    destruct (std_msgs.data msg); simpl; now rewrite andb_true_r.
  - rewrite current_velocity_cb_run; simpl. now rewrite andb_false_r.
  - rewrite twist_cmd_cb_run; simpl. now rewrite andb_true_r.
  - destruct (iterate_node sys) as [c ->]; simpl. now rewrite andb_true_r.
  - simpl. now rewrite andb_true_r.
Qed.

Lemma step_enabled (i : Input) (sys : System) :
  dbw_enabled (node (fst (step i sys))) =
  match i with
  | DbwEnabledMsg msg => std_msgs.data msg
  | _ => dbw_enabled (node sys)
  end.
Proof.
  destruct i as [msg|msg|msg| |]; unfold step, deliver.
  - rewrite dbw_enabled_cb_run; simpl. now destruct (std_msgs.data msg).
  - now rewrite current_velocity_cb_run.
  - now rewrite twist_cmd_cb_run.
  - now destruct (iterate_node sys) as [c ->].
  - reflexivity.
Qed.

Lemma required_after (sched : list Input) (sys : System) :
  is_None (required_vel_linear (node (state_after sched sys))) =
  is_None (required_vel_linear (node sys)) && negb (existsb is_twist_cmd sched).
Proof.
  revert sys. induction sched as [|i rest IH]; intros sys.
  - simpl. now rewrite andb_true_r.
  - rewrite state_after_cons, IH, step_required; simpl.
    now rewrite negb_orb, andb_assoc.
Qed.

Lemma current_after (sched : list Input) (sys : System) :
  is_None (current_vel_linear (node (state_after sched sys))) =
  is_None (current_vel_linear (node sys)) && negb (existsb is_current_velocity sched).
Proof.
  revert sys. induction sched as [|i rest IH]; intros sys.
  - simpl. now rewrite andb_true_r.
  - rewrite state_after_cons, IH, step_current; simpl.
    now rewrite negb_orb, andb_assoc.
Qed.

Lemma last_cons_default {A : Type} (a d : A) (l : list A) :
  last (a :: l) d = last l a.
Proof.
  revert a d. induction l as [|b l IH]; intros a d; [reflexivity|].
  change (last (a :: b :: l) d) with (last (b :: l) d).
  now rewrite (IH b d), (IH b a).
Qed.

(** The gate follows the most recent enable-signal message. *)
Lemma enabled_after (sched : list Input) (sys : System) :
  dbw_enabled (node (state_after sched sys)) =
  last (enable_values sched) (dbw_enabled (node sys)).
Proof.
  revert sys. induction sched as [|i rest IH]; intros sys; [reflexivity|].
  rewrite state_after_cons, IH, step_enabled.
  destruct i as [msg|msg|msg| |]; try reflexivity.
  change (enable_values (DbwEnabledMsg msg :: rest))
    with (std_msgs.data msg :: enable_values rest).
  now rewrite last_cons_default.
Qed.

(** ** Where a published command comes from *)

Lemma trace_in_origin (sched : list Input) (sys : System) (e : Event) :
  In e (trace sched sys) ->
  exists pre i post,
    sched = pre ++ i :: post /\ In e (snd (step i (state_after pre sys))).
Proof.
  revert sys. induction sched as [|i rest IH]; intros sys Hin.
  - destruct Hin.
  - rewrite trace_cons in Hin. apply in_app_or in Hin as [Hin|Hin].
    + now exists [], i, rest.
    + destruct (IH _ Hin) as (pre & j & post & -> & Hj).
      exists (i :: pre), j, post. split; [reflexivity|].
      now rewrite state_after_cons.
Qed.

Lemma step_command_ready (i : Input) (sys : System) (e : Event) :
  In e (snd (step i sys)) -> is_command e = true ->
  i = Iterate /\ not_ready (node sys) = false /\ is_shutdown sys = false /\
  exists rate, main sys = InLoop rate.
Proof.
  intros Hin Hcmd. destruct i as [msg|msg|msg| |]; unfold step, deliver in Hin.
  - rewrite dbw_enabled_cb_run in Hin; simpl in Hin.
    destruct Hin as [<-|Hin]; [discriminate|].
    destruct (std_msgs.data msg); simpl in Hin; [tauto|].
    destruct Hin as [<-|[]]; discriminate.
  - rewrite current_velocity_cb_run in Hin. destruct Hin.
  - rewrite twist_cmd_cb_run in Hin; cbn -[py_ne] in Hin.
    destruct (py_ne _ _); simpl in Hin; [|tauto].
    destruct Hin as [<-|[]]; discriminate.
  - destruct (iterate_shape sys); simpl in Hin; try tauto.
    + repeat split; eauto.
    + destruct Hin as [<-|[]]; discriminate.
  - destruct Hin.
Qed.

(** ** The gate in the step model *)

Lemma commands_nil (evs : list Event) :
  (forall e, In e evs -> is_command e = true -> False) -> commands evs = [].
Proof.
  induction evs as [|e evs IH]; intros H; [reflexivity|].
  unfold commands in *; simpl. destruct (is_command e) eqn:He.
  - destruct (H e (or_introl eq_refl) He).
  - apply IH. intros e' Hin. apply H. now right.
Qed.

Lemma enable_values_app (a b : list Input) :
  enable_values (a ++ b) = enable_values a ++ enable_values b.
Proof. unfold enable_values. apply flat_map_app. Qed.

Lemma last_all_false (signals : list bool) :
  Forall (fun b => b = false) signals -> last signals false = false.
Proof.
  induction 1 as [|b rest Hb _ IH]; [reflexivity|].
  subst b. now rewrite last_cons_default.
Qed.

(** Every published command stems from a loop iteration that found the gate
    enabled by the latest enable message and both velocities delivered. *)
Lemma command_needs_gate (c0 : ControllerState) (sched : list Input) (e : Event) :
  In e (trace sched (boot c0)) -> is_command e = true ->
  exists pre post,
    sched = pre ++ Iterate :: post /\
    In e (snd (step Iterate (state_after pre (boot c0)))) /\
    dbw_enabled (node (state_after pre (boot c0))) = true /\
    last (enable_values pre) false = true /\
    existsb is_twist_cmd pre = true /\
    existsb is_current_velocity pre = true.
Proof.
  intros Hin Hcmd.
  destruct (trace_in_origin _ _ _ Hin) as (pre & i & post & -> & Hstep).
  destruct (step_command_ready _ _ _ Hstep Hcmd) as (-> & Hready & _).
  exists pre, post. split; [reflexivity|]. split; [exact Hstep|].
  unfold not_ready in Hready.
  apply orb_false_iff in Hready as [Hvel Hen].
  apply orb_false_iff in Hvel as [Hcur Hreq].
  apply negb_false_iff in Hen.
  rewrite current_after in Hcur. rewrite required_after in Hreq.
  simpl in Hcur, Hreq. apply negb_false_iff in Hcur, Hreq.
  pose proof Hen as Hlast. rewrite enabled_after in Hlast.
  now repeat split.
Qed.

(** ** Resets (C2) *)

Lemma step_resets (i : Input) (sys : System) :
  count_resets (snd (step i sys)) = length (filter negb (enable_values [i])).
Proof.
  destruct i as [msg|msg|msg| |]; unfold step, deliver.
  - rewrite dbw_enabled_cb_run; simpl. now destruct (std_msgs.data msg).
  - now rewrite current_velocity_cb_run.
  - rewrite twist_cmd_cb_run; cbn -[py_ne]. now destruct (py_ne _ _).
  - now destruct (iterate_shape sys).
  - reflexivity.
Qed.

(** C2, as the code has it.  The enable callback calls [Controller.reset()]
    exactly once for each message that carries false, whatever the gate was
    before, and never for a message that carries true; nothing else calls it.
    So over any run the number of resets is the number of false enable
    messages: one per enabled-to-disabled transition, none for a
    disabled-to-enabled one, and one more for every repeated false. *)
Theorem reset_on_every_disable_message :
  (forall (msg : std_msgs.Bool) (self : DBWNode),
      count_resets (snd (dbw_enabled_cb msg self)) =
      (if std_msgs.data msg then 0 else 1)%nat)
  /\ (forall (sched : list Input) (sys : System),
         count_resets (trace sched sys) = length (filter negb (enable_values sched))).
Proof.
  split.
  - intros msg self. rewrite dbw_enabled_cb_run; simpl.
    now destruct (std_msgs.data msg).
  - intros sched. induction sched as [|i rest IH]; intros sys; [reflexivity|].
    rewrite trace_cons, count_resets_app, step_resets, IH.
    change (i :: rest) with ([i] ++ rest).
    now rewrite enable_values_app, filter_app, length_app.
Qed.

(** ** Pacing (C3) *)

Lemma iterate_at_boot (c0 : ControllerState) :
  step Iterate (boot c0) = (boot c0, []).
Proof.
  unfold step, iterate, boot. cbn [main is_shutdown node].
  now rewrite loop_body_skip.
Qed.

Lemma idle_at_boot (c0 : ControllerState) (n : nat) :
  run (repeat Iterate n) (boot c0) = (boot c0, []).
Proof.
  induction n as [|n IH]; [reflexivity|].
  cbn [repeat run]. now rewrite iterate_at_boot, IH.
Qed.

(** C3 fails on the code.  From the freshly constructed node the loop can
    turn any number of times in a row, each turn taking the [continue] of
    line 80, and no pacing sleep happens: the trace stays empty and the main
    thread is still in the loop. *)
Theorem skipped_iterations_never_sleep (c0 : ControllerState) (n : nat) :
  count_sleeps (trace (repeat Iterate n) (boot c0)) = 0%nat
  /\ trace (repeat Iterate n) (boot c0) = []
  /\ main (state_after (repeat Iterate n) (boot c0)) = InLoop 50%float.
Proof.
  unfold trace, state_after. rewrite idle_at_boot. now repeat split.
Qed.

(** ** Active ticks (C4, C5) *)

(** C4.  On a tick that passes the test of lines 78-79 and whose [control]
    call returns (throttle, brake, steer), the loop calls [control] once with
    (target linear, target angular, current linear), then publishes one
    throttle message (enabled, percent, throttle), one steering message
    (enabled, steer) and one brake message (enabled, torque, brake), then
    sleeps; the controller is left as the call left it. *)
Theorem active_tick_publishes_control_result
        (sys : System) (rate : float) (c : ControllerState)
        (throttle brake steer : float) :
  main sys = InLoop rate ->
  is_shutdown sys = false ->
  not_ready (node sys) = false ->
  controller_control (controller (node sys))
                     (required_vel_linear (node sys))
                     (required_vel_angular (node sys))
                     (current_vel_linear (node sys))
  = (c, Normal (throttle, brake, steer)) ->
  step Iterate sys =
  (mkSystem (set_controller c (node sys)) false (InLoop rate),
   [ EvControl (required_vel_linear (node sys)) (required_vel_angular (node sys))
               (current_vel_linear (node sys));
     EvThrottle (ThrottleCmd.mk true ThrottleCmd.CMD_PERCENT throttle);
     EvSteering (SteeringCmd.mk true steer);
     EvBrake (BrakeCmd.mk true BrakeCmd.CMD_TORQUE brake);
     EvSleep rate ]).
Proof.
  intros Hmain Hsd Hready Hctl. unfold step, iterate.
  rewrite Hmain, Hsd, (loop_body_active rate _ _ _ _ _ Hready Hctl).
  reflexivity.
Qed.

Lemma step_shutdown (i : Input) (sys : System) :
  is_shutdown sys = true -> is_shutdown (fst (step i sys)) = true.
Proof.
  intros H. destruct i as [msg|msg|msg| |]; unfold step, deliver.
  - now rewrite dbw_enabled_cb_run.
  - now rewrite current_velocity_cb_run.
  - now rewrite twist_cmd_cb_run.
  - destruct (iterate_shape sys); simpl; congruence.
  - reflexivity.
Qed.

Lemma step_left (i : Input) (sys : System) :
  loop_left sys = true -> main (fst (step i sys)) = main sys.
Proof.
  intros H. destruct i as [msg|msg|msg| |]; unfold step, deliver.
  - now rewrite dbw_enabled_cb_run.
  - now rewrite current_velocity_cb_run.
  - now rewrite twist_cmd_cb_run.
  - unfold loop_left in H. unfold iterate.
    destruct (main sys) eqn:Hmain; simpl; congruence.
  - reflexivity.
Qed.

Lemma shutdown_after (sched : list Input) (sys : System) :
  is_shutdown sys = true -> is_shutdown (state_after sched sys) = true.
Proof.
  revert sys. induction sched as [|i rest IH]; intros sys H; [exact H|].
  rewrite state_after_cons. now apply IH, step_shutdown.
Qed.

Lemma left_after (sched : list Input) (sys : System) :
  loop_left sys = true -> main (state_after sched sys) = main sys.
Proof.
  revert sys. induction sched as [|i rest IH]; intros sys H; [reflexivity|].
  rewrite state_after_cons, IH; [now apply step_left|].
  unfold loop_left. rewrite (step_left _ _ H). exact H.
Qed.

(** Once shutdown was requested or the main thread left the loop, nothing
    is published any more. *)
Lemma silent_after_stop (sched : list Input) (sys : System) :
  is_shutdown sys = true \/ loop_left sys = true ->
  commands (trace sched sys) = [].
Proof.
  intros Hstop. apply commands_nil. intros e Hin Hcmd.
  destruct (trace_in_origin _ _ _ Hin) as (pre & i & post & -> & Hstep).
  destruct (step_command_ready _ _ _ Hstep Hcmd) as (_ & _ & Hsd & rate & Hmain).
  destruct Hstop as [H|H].
  - rewrite (shutdown_after pre _ H) in Hsd. discriminate.
  - rewrite (left_after pre _ H) in Hmain.
    unfold loop_left in H. rewrite Hmain in H. discriminate.
Qed.

(** C5.  When [control] raises on an active tick, the iteration ends right
    after the call: nothing is published and no sleep happens, the exception
    is uncaught in the main thread, and from then on the thread stays gone
    and no command is ever published, whatever arrives later. *)
Theorem control_fault_is_fail_stop
        (sys : System) (rate : float) (c : ControllerState) (e : Exn) :
  main sys = InLoop rate ->
  is_shutdown sys = false ->
  not_ready (node sys) = false ->
  controller_control (controller (node sys))
                     (required_vel_linear (node sys))
                     (required_vel_angular (node sys))
                     (current_vel_linear (node sys))
  = (c, Raise e) ->
  step Iterate sys =
  (mkSystem (set_controller c (node sys)) false (Uncaught e),
   [ EvControl (required_vel_linear (node sys)) (required_vel_angular (node sys))
               (current_vel_linear (node sys)) ])
  /\ forall later : list Input,
      commands (trace (Iterate :: later) sys) = []
      /\ main (state_after (Iterate :: later) sys) = Uncaught e.
Proof.
  intros Hmain Hsd Hready Hctl.
  assert (Hstep : step Iterate sys =
                  (mkSystem (set_controller c (node sys)) false (Uncaught e),
                   [ EvControl (required_vel_linear (node sys))
                               (required_vel_angular (node sys))
                               (current_vel_linear (node sys)) ])).
  { unfold step, iterate.
    now rewrite Hmain, Hsd, (loop_body_fault rate _ _ _ Hready Hctl). }
  split; [exact Hstep|]. intros later.
  rewrite trace_cons, state_after_cons, Hstep; simpl fst; simpl snd.
  split.
  - rewrite commands_app, silent_after_stop; [reflexivity | now right].
  - now rewrite left_after.
Qed.

(** ** Whole commands only (C7) *)

Lemma commands_actuator_command (throttle brake steer : float) :
  commands (actuator_command throttle brake steer) =
  actuator_command throttle brake steer.
Proof. reflexivity. Qed.



(** ** The fail-safe default (C8) *)

(** C8.  [__init__] sets [dbw_enabled] to false, and as long as no enable
    message has been processed it stays false and nothing is published,
    whatever velocities arrive and however often the loop turns. *)
Theorem gate_disabled_until_enabled (c0 : ControllerState) :
  dbw_enabled (DBWNode_init c0) = false
  /\ forall sched : list Input,
      enable_values sched = [] ->
      dbw_enabled (node (state_after sched (boot c0))) = false
      /\ commands (trace sched (boot c0)) = [].
Proof.
  split; [reflexivity|]. intros sched Hnone. split.
  - now rewrite enabled_after, Hnone.
  - apply commands_nil. intros e Hin Hcmd.
    destruct (command_needs_gate _ _ _ Hin Hcmd)
      as (pre & post & -> & _ & _ & Hlast & _).
    rewrite enable_values_app in Hnone. apply app_eq_nil in Hnone as [Hpre _].
    rewrite Hpre in Hlast. discriminate.
Qed.

(** ** The target pair in the step model *)

Lemma step_angular (i : Input) (sys : System) :
  is_None (required_vel_angular (node (fst (step i sys)))) =
  is_None (required_vel_angular (node sys)) && negb (is_twist_cmd i).
Proof.
  destruct i as [msg|msg|msg| |]; unfold step, deliver.
  - rewrite dbw_enabled_cb_run; simpl.
    destruct (std_msgs.data msg); simpl; now rewrite andb_true_r.
  - rewrite current_velocity_cb_run; simpl. now rewrite andb_true_r.
  - rewrite twist_cmd_cb_run; simpl. now rewrite andb_false_r.
  - destruct (iterate_node sys) as [c ->]; simpl. now rewrite andb_true_r.
  - simpl. now rewrite andb_true_r.
Qed.

Lemma angular_after (sched : list Input) (sys : System) :
  is_None (required_vel_angular (node (state_after sched sys))) =
  is_None (required_vel_angular (node sys)) && negb (existsb is_twist_cmd sched).
Proof.
  revert sys. induction sched as [|i rest IH]; intros sys.
  - simpl. now rewrite andb_true_r.
  - rewrite state_after_cons, IH, step_angular; simpl.
    now rewrite negb_orb, andb_assoc.
Qed.

Lemma step_control_args (i : Input) (sys : System) (lin ang cur : option float) :
  In (EvControl lin ang cur) (snd (step i sys)) ->
  i = Iterate /\
  not_ready (node sys) = false /\
  lin = required_vel_linear (node sys) /\
  ang = required_vel_angular (node sys) /\
  cur = current_vel_linear (node sys).
Proof.
  intros Hin. destruct i as [msg|msg|msg| |]; unfold step, deliver in Hin.
  - rewrite dbw_enabled_cb_run in Hin; simpl in Hin.
    destruct Hin as [Hin|Hin]; [discriminate|].
    destruct (std_msgs.data msg); simpl in Hin; [tauto|].
    destruct Hin as [Hin|[]]; discriminate.
  - rewrite current_velocity_cb_run in Hin. destruct Hin.
  - rewrite twist_cmd_cb_run in Hin; cbn -[py_ne] in Hin.
    destruct (py_ne _ _); simpl in Hin; [|tauto].
    destruct Hin as [Hin|[]]; discriminate.
  - destruct (iterate_shape sys); simpl in Hin; try tauto.
    + destruct Hin as [Hin|Hin]; [now inversion Hin|].
      repeat (destruct Hin as [Hin|Hin]; [discriminate|]). destruct Hin.
    + destruct Hin as [Hin|[]]. now inversion Hin.
  - destruct Hin.
Qed.

(** ** The velocity callbacks (C10) *)

(** C10.  [current_velocity_cb] returns normally, performs no effect and
    changes [current_vel_linear] only.  [twist_cmd_cb] returns normally,
    writes the two target fields and the two diagnostic fields, leaves
    [current_vel_linear], [dbw_enabled], [sampling_rate] and the controller
    as they were, and performs nothing but logging: no reset, no control
    call, no published command. *)
Theorem velocity_callbacks_touch_only_their_fields
        (msg : geometry_msgs.TwistStamped) (self : DBWNode) :
  current_velocity_cb msg self =
  (Normal tt,
   mkDBWNode (required_vel_linear self) (required_vel_angular self)
             (Some (geometry_msgs.x (geometry_msgs.linear (geometry_msgs.twist msg))))
             (last_required_vel_angular self) (count_required_vel_angular self)
             (dbw_enabled self) (sampling_rate self) (controller self),
   [])
  /\ exists (last_ang : option float) (count : Z) (log : list Event),
      twist_cmd_cb msg self =
      (Normal tt,
       mkDBWNode
         (Some (geometry_msgs.x (geometry_msgs.linear (geometry_msgs.twist msg))))
         (Some (geometry_msgs.z (geometry_msgs.angular (geometry_msgs.twist msg))))
         (current_vel_linear self) last_ang count
         (dbw_enabled self) (sampling_rate self) (controller self),
       log)
      /\ forallb is_log log = true.
Proof.
  split; [reflexivity|].
  rewrite twist_cmd_cb_run.
  do 3 eexists. split; [reflexivity|].
  now destruct (py_ne _ _).
Qed.

(** ** Which message a control call sees *)

Lemma step_target (i : Input) (sys : System) :
  target_fields (node (fst (step i sys))) =
  match i with
  | TwistCmdMsg msg => target_of_msg msg
  | _ => target_fields (node sys)
  end.
Proof.
  destruct i as [msg|msg|msg| |]; unfold step, deliver.
  - rewrite dbw_enabled_cb_run; simpl. now destruct (std_msgs.data msg).
  - now rewrite current_velocity_cb_run.
  - now rewrite twist_cmd_cb_run.
  - now destruct (iterate_node sys) as [c ->].
  - reflexivity.
Qed.

Lemma target_after (sched : list Input) (sys : System) :
  target_fields (node (state_after sched sys)) =
  latest_target (target_fields (node sys)) sched.
Proof.
  revert sys. induction sched as [|i rest IH]; intros sys; [reflexivity|].
  rewrite state_after_cons, IH, step_target. now destruct i.
Qed.

(** When callbacks and loop iterations do not overlap, the linear and
    angular target the [control] call of a loop iteration receives are the
    two fields of one message: the latest target-velocity message delivered
    before that very iteration. *)
Lemma control_pair_from_latest_message
      (c0 : ControllerState) (pre : list Input) (i : Input)
      (lin ang cur : option float) :
  In (EvControl lin ang cur) (snd (step i (state_after pre (boot c0)))) ->
  i = Iterate /\ (lin, ang) = latest_target (None, None) pre.
Proof.
  intros Hstep.
  destruct (step_control_args _ _ _ _ _ Hstep) as (-> & _ & -> & -> & _).
  split; [reflexivity|].
  change (@None float, @None float) with (target_fields (node (boot c0))).
  now rewrite <- target_after.
Qed.


(** ** More about whole runs: what else the definitions below need *)

Definition is_control (e : Event) : bool :=
  match e with EvControl _ _ _ => true | _ => false end.

Definition is_throttle (e : Event) : bool :=
  match e with EvThrottle _ => true | _ => false end.

Definition is_steering (e : Event) : bool :=
  match e with EvSteering _ => true | _ => false end.

Definition is_brake (e : Event) : bool :=
  match e with EvBrake _ => true | _ => false end.

Definition count_events (p : Event -> bool) (evs : list Event) : nat :=
  length (filter p evs).

(** Effects that need no authorisation: log lines and controller resets. *)
Definition is_passive (e : Event) : bool := is_log e || is_reset e.

(** 1 when the main thread died of an uncaught exception, else 0. *)
Definition uncaught (sys : System) : nat :=
  match main sys with Uncaught _ => 1%nat | _ => 0%nat end.

(** The controller object after the calls recorded in a trace, made in
    order on the controller [c]. *)
Fixpoint replay (evs : list Event) (c : ControllerState) : ControllerState :=
  match evs with
  | [] => c
  | EvReset :: rest => replay rest (controller_reset c)
  | EvControl lin ang cur :: rest =>
      replay rest (fst (controller_control c lin ang cur))
  | _ :: rest => replay rest c
  end.

(** The value left in [current_vel_linear] by the latest
    [/current_velocity] message of a schedule ([init] when there is none). *)
Fixpoint latest_current (init : option float) (sched : list Input) : option float :=
  match sched with
  | [] => init
  | CurrentVelocityMsg msg :: rest =>
      latest_current
        (Some (geometry_msgs.x (geometry_msgs.linear (geometry_msgs.twist msg)))) rest
  | _ :: rest => latest_current init rest
  end.

(** The counts written into the veer log lines of a trace, added up. *)
Fixpoint logged_veer_counts (evs : list Event) : Z :=
  match evs with
  | [] => 0
  | EvLogVeer _ count :: rest => count + logged_veer_counts rest
  | _ :: rest => logged_veer_counts rest
  end.

(** ** The controller is touched through its two methods only *)

Lemma replay_app (a b : list Event) (c : ControllerState) :
  replay (a ++ b) c = replay b (replay a c).
Proof.
  revert c. induction a as [|e a IH]; intros c; [reflexivity|].
  destruct e; simpl; apply IH.
Qed.

Lemma iterate_replay (sys : System) :
  controller (node (fst (iterate sys))) =
  replay (snd (iterate sys)) (controller (node sys)).
Proof.
  destruct sys as [self sd m]. unfold iterate; simpl.
  destruct m as [rate| |e]; try reflexivity.
  destruct sd; [reflexivity|].
  destruct (not_ready self) eqn:Hready.
  - now rewrite (loop_body_skip _ _ Hready).
  - destruct (controller_control (controller self) (required_vel_linear self)
                (required_vel_angular self) (current_vel_linear self))
      as [c [[[throttle brake] steer]|e]] eqn:Hctl.
    + rewrite (loop_body_active _ _ _ _ _ _ Hready Hctl); simpl.
      now rewrite Hctl.
    + rewrite (loop_body_fault _ _ _ _ Hready Hctl); simpl.
      now rewrite Hctl.
Qed.

Lemma step_replay (i : Input) (sys : System) :
  controller (node (fst (step i sys))) =
  replay (snd (step i sys)) (controller (node sys)).
Proof.
  destruct i as [msg|msg|msg| |]; unfold step, deliver.
  - rewrite dbw_enabled_cb_run; simpl. now destruct (std_msgs.data msg).
  - now rewrite current_velocity_cb_run.
  - rewrite twist_cmd_cb_run; cbn -[py_ne]. now destruct (py_ne _ _).
  - apply iterate_replay.
  - reflexivity.
Qed.

(** Whatever the run, the controller the node holds at its end is the
    initial one after exactly the [control] and [reset] calls of the trace,
    in trace order: nothing else ever changes or replaces it. *)
Theorem controller_is_replay_of_calls (sched : list Input) (sys : System) :
  controller (node (state_after sched sys)) =
  replay (trace sched sys) (controller (node sys)).
Proof.
  revert sys. induction sched as [|i rest IH]; intros sys; [reflexivity|].
  now rewrite state_after_cons, trace_cons, replay_app, IH, step_replay.
Qed.

(** ** Counting the effects of a run *)

Lemma count_events_app (p : Event -> bool) (a b : list Event) :
  count_events p (a ++ b) = (count_events p a + count_events p b)%nat.
Proof. unfold count_events. now rewrite filter_app, length_app. Qed.

Lemma step_main_callback (i : Input) (sys : System) :
  is_iterate i = false -> main (fst (step i sys)) = main sys.
Proof.
  intros Hi. destruct i as [msg|msg|msg| |]; unfold step, deliver.
  - now rewrite dbw_enabled_cb_run.
  - now rewrite current_velocity_cb_run.
  - now rewrite twist_cmd_cb_run.
  - discriminate.
  - reflexivity.
Qed.

Lemma step_balance (i : Input) (sys : System) :
  let evs := snd (step i sys) in
  count_events is_throttle evs = count_events is_sleep evs
  /\ count_events is_steering evs = count_events is_sleep evs
  /\ count_events is_brake evs = count_events is_sleep evs
  /\ (count_events is_control evs + uncaught sys =
      count_events is_sleep evs + uncaught (fst (step i sys)))%nat.
Proof.
  cbv zeta. destruct i as [msg|msg|msg| |]; unfold step, deliver.
  - rewrite dbw_enabled_cb_run; simpl. now destruct (std_msgs.data msg).
  - now rewrite current_velocity_cb_run.
  - rewrite twist_cmd_cb_run; cbn -[py_ne]. now destruct (py_ne _ _).
  - destruct (iterate_shape sys) as [|rate Hm Hs|rate c t b s Hm Hs Hr|rate c e Hm Hs Hr];
      unfold uncaught; simpl; try rewrite Hm; now repeat split.
  - now repeat split.
Qed.

(** In every run of the node, as many throttle, steering and brake messages
    are published as pacing sleeps are taken, and [control] is called that
    many times, plus once more exactly when the run ended with the main
    thread killed by a controller exception. *)
Theorem effects_are_balanced (c0 : ControllerState) (sched : list Input) :
  count_events is_throttle (trace sched (boot c0)) =
  count_events is_sleep (trace sched (boot c0))
  /\ count_events is_steering (trace sched (boot c0)) =
     count_events is_sleep (trace sched (boot c0))
  /\ count_events is_brake (trace sched (boot c0)) =
     count_events is_sleep (trace sched (boot c0))
  /\ count_events is_control (trace sched (boot c0)) =
     (count_events is_sleep (trace sched (boot c0))
      + uncaught (state_after sched (boot c0)))%nat.
Proof.
  assert (H : forall sys : System,
             count_events is_throttle (trace sched sys) =
             count_events is_sleep (trace sched sys)
             /\ count_events is_steering (trace sched sys) =
                count_events is_sleep (trace sched sys)
             /\ count_events is_brake (trace sched sys) =
                count_events is_sleep (trace sched sys)
             /\ (count_events is_control (trace sched sys) + uncaught sys =
                 count_events is_sleep (trace sched sys)
                 + uncaught (state_after sched sys))%nat).
  { induction sched as [|i rest IH]; intros sys; [now repeat split|].
    rewrite trace_cons, state_after_cons, !count_events_app.
    destruct (step_balance i sys) as (Ht & Hs & Hb & Hc).
    destruct (IH (fst (step i sys))) as (Ht' & Hs' & Hb' & Hc').
    repeat split; lia. }
  destruct (H (boot c0)) as (Ht & Hs & Hb & Hc).
  repeat split; try assumption.
  change (uncaught (boot c0)) with 0%nat in Hc. lia.
Qed.

(** ** The measured velocity a control call sees *)

Lemma step_current_value (i : Input) (sys : System) :
  current_vel_linear (node (fst (step i sys))) =
  latest_current (current_vel_linear (node sys)) [i].
Proof.
  destruct i as [msg|msg|msg| |]; unfold step, deliver.
  - rewrite dbw_enabled_cb_run; simpl. now destruct (std_msgs.data msg).
  - now rewrite current_velocity_cb_run.
  - now rewrite twist_cmd_cb_run.
  - now destruct (iterate_node sys) as [c ->].
  - reflexivity.
Qed.

Lemma current_value_after (sched : list Input) (sys : System) :
  current_vel_linear (node (state_after sched sys)) =
  latest_current (current_vel_linear (node sys)) sched.
Proof.
  revert sys. induction sched as [|i rest IH]; intros sys; [reflexivity|].
  rewrite state_after_cons, IH, step_current_value. now destruct i.
Qed.

(** ** The veer diagnostics *)

Lemma step_veer_account (i : Input) (sys : System) :
  logged_veer_counts (snd (step i sys))
  + count_required_vel_angular (node (fst (step i sys))) =
  count_required_vel_angular (node sys) + (if is_twist_cmd i then 1 else 0).
Proof.
  destruct i as [msg|msg|msg| |]; unfold step, deliver.
  - rewrite dbw_enabled_cb_run; simpl. destruct (std_msgs.data msg); simpl; lia.
  - rewrite current_velocity_cb_run; simpl; lia.
  - rewrite twist_cmd_cb_run; cbn -[py_ne Z.add]. destruct (py_ne _ _); simpl; lia.
  - destruct (iterate_shape sys); simpl; lia.
  - simpl; lia.
Qed.

Lemma logged_veer_counts_app (a b : list Event) :
  logged_veer_counts (a ++ b) = logged_veer_counts a + logged_veer_counts b.
Proof.
  induction a as [|e a IH]; [reflexivity|].
  destruct e; simpl; rewrite ?IH; lia.
Qed.

(** No target message is lost by the veer bookkeeping: the counts written
    into the veer log lines of a run plus the counter left in the node add
    up to the counter at the start plus the number of [/twist_cmd] messages
    delivered. *)
Theorem veer_counts_account_for_every_message (sched : list Input) (sys : System) :
  logged_veer_counts (trace sched sys)
  + count_required_vel_angular (node (state_after sched sys)) =
  count_required_vel_angular (node sys)
  + Z.of_nat (length (filter is_twist_cmd sched)).
Proof.
  revert sys. induction sched as [|i rest IH]; intros sys.
  { unfold trace, state_after; simpl; lia. }
  rewrite trace_cons, state_after_cons, logged_veer_counts_app.
  pose proof (IH (fst (step i sys))) as Hrest.
  pose proof (step_veer_account i sys) as Hstep.
  simpl filter. destruct (is_twist_cmd i); simpl length; lia.
Qed.

Lemma step_veer_state (i : Input) (sys : System) :
  (is_twist_cmd i = true ->
   last_required_vel_angular (node (fst (step i sys))) =
   required_vel_angular (node (fst (step i sys)))
   /\ Z.min 1 (count_required_vel_angular (node sys) + 1)
      <= count_required_vel_angular (node (fst (step i sys)))
      <= Z.max 1 (count_required_vel_angular (node sys) + 1))
  /\ (is_twist_cmd i = false ->
      last_required_vel_angular (node (fst (step i sys))) =
      last_required_vel_angular (node sys)
      /\ required_vel_angular (node (fst (step i sys))) =
         required_vel_angular (node sys)
      /\ count_required_vel_angular (node (fst (step i sys))) =
         count_required_vel_angular (node sys)).
Proof.
  destruct i as [msg|msg|msg| |]; unfold step, deliver; simpl is_twist_cmd;
    (split; [intros Ht | intros Ht]); try discriminate.
  - rewrite dbw_enabled_cb_run; simpl. now destruct (std_msgs.data msg).
  - now rewrite current_velocity_cb_run.
  - rewrite twist_cmd_cb_run; cbn -[py_ne Z.add Z.max].
    split; [reflexivity|]. destruct (py_ne _ _); lia.
  - now destruct (iterate_node sys) as [c ->].
  - now repeat split.
Qed.

(** From the constructed node: once a [/twist_cmd] message was delivered,
    [last_required_vel_angular] equals the angular target and the counter is
    at least 1 and at most the number of target messages so far; before any
    such message they are still 0.0 and 0. *)
Theorem veer_state_tracks_target (c0 : ControllerState) (sched : list Input) :
  if existsb is_twist_cmd sched then
    last_required_vel_angular (node (state_after sched (boot c0))) =
    required_vel_angular (node (state_after sched (boot c0)))
    /\ 1 <= count_required_vel_angular (node (state_after sched (boot c0)))
       <= Z.of_nat (length (filter is_twist_cmd sched))
  else
    last_required_vel_angular (node (state_after sched (boot c0))) = Some 0%float
    /\ count_required_vel_angular (node (state_after sched (boot c0))) = 0.
Proof.
  induction sched as [|i pre IH] using rev_ind; [now split|].
  rewrite state_after_app, state_after_cons, state_after_nil.
  rewrite existsb_app, filter_app, length_app. simpl existsb. simpl filter.
  rewrite orb_false_r.
  destruct (step_veer_state i (state_after pre (boot c0))) as [Hyes Hno].
  destruct (is_twist_cmd i) eqn:Hi.
  - rewrite orb_true_r. destruct (Hyes eq_refl) as (Hlast & Hcount).
    split; [exact Hlast|]. simpl length.
    destruct (existsb is_twist_cmd pre); destruct IH as (_ & IH); lia.
  - rewrite orb_false_r. destruct (Hno eq_refl) as (-> & -> & ->).
    simpl length. rewrite Nat.add_0_r. exact IH.
Qed.

Lemma eqb_nan_l (u v : float) : PrimFloat.is_nan u = true -> PrimFloat.eqb u v = false.
Proof.
  intros Hnan. rewrite FloatAxioms.eqb_spec. unfold Prim2SF at 1. rewrite Hnan.
  reflexivity.
Qed.

(** A NaN angular target is never equal to anything, itself included: every
    [/twist_cmd] message that carries one writes a veer log line (with the
    counter as it stood) and leaves the counter at 1.  A message that repeats
    an ordinary angular target writes no line and adds 1 to the counter. *)
Theorem veer_log_on_nan_and_repeat
        (msg : geometry_msgs.TwistStamped) (self : DBWNode) :
  (PrimFloat.is_nan (geometry_msgs.z (geometry_msgs.angular (geometry_msgs.twist msg)))
   = true ->
   snd (twist_cmd_cb msg self) =
   [ EvLogVeer
       (Some (geometry_msgs.z (geometry_msgs.angular (geometry_msgs.twist msg))))
       (count_required_vel_angular self) ]
   /\ count_required_vel_angular (snd (fst (twist_cmd_cb msg self))) = 1)
  /\ (PrimFloat.is_nan (geometry_msgs.z (geometry_msgs.angular (geometry_msgs.twist msg)))
      = false ->
      last_required_vel_angular self =
      Some (geometry_msgs.z (geometry_msgs.angular (geometry_msgs.twist msg))) ->
      snd (twist_cmd_cb msg self) = []
      /\ count_required_vel_angular (snd (fst (twist_cmd_cb msg self))) =
         count_required_vel_angular self + 1).
Proof.
  rewrite twist_cmd_cb_run. cbn -[py_ne Z.add]. split.
  - intros Hnan.
    assert (Hne : py_ne (Some (geometry_msgs.z (geometry_msgs.angular
                                                   (geometry_msgs.twist msg))))
                        (last_required_vel_angular self) = true).
    { destruct (last_required_vel_angular self) as [v|]; [|reflexivity].
      unfold py_ne, float_ne. now rewrite eqb_nan_l. }
    now rewrite Hne.
  - intros Hnum Hlast. rewrite Hlast.
    assert (Heq : py_ne (Some (geometry_msgs.z (geometry_msgs.angular
                                                   (geometry_msgs.twist msg))))
                        (Some (geometry_msgs.z (geometry_msgs.angular
                                                   (geometry_msgs.twist msg))))
                  = false).
    { unfold py_ne, float_ne. unfold PrimFloat.is_nan in Hnum.
      apply negb_false_iff in Hnum. now rewrite Hnum. }
    now rewrite Heq.
Qed.

(** ** Runs in which the loop cannot act *)

Lemma step_active_effect (i : Input) (sys : System) (e : Event) :
  In e (snd (step i sys)) -> is_passive e = false ->
  i = Iterate /\ not_ready (node sys) = false /\ is_shutdown sys = false /\
  exists rate, main sys = InLoop rate.
Proof.
  intros Hin Hact. destruct i as [msg|msg|msg| |]; unfold step, deliver in Hin.
  - rewrite dbw_enabled_cb_run in Hin; simpl in Hin.
    destruct Hin as [<-|Hin]; [discriminate|].
    destruct (std_msgs.data msg); simpl in Hin; [tauto|].
    destruct Hin as [<-|[]]; discriminate.
  - rewrite current_velocity_cb_run in Hin. destruct Hin.
  - rewrite twist_cmd_cb_run in Hin; cbn -[py_ne] in Hin.
    destruct (py_ne _ _); simpl in Hin; [|tauto].
    destruct Hin as [<-|[]]; discriminate.
  - destruct (iterate_shape sys); simpl in Hin; try tauto; repeat split; eauto.
  - destruct Hin.
Qed.



(** ** Delivery order between topics *)

(** Callbacks of different topics commute.  Swapping a [/current_velocity]
    message with a neighbouring enable or [/twist_cmd] message changes
    neither the resulting node nor the effects; swapping an enable message
    with a [/twist_cmd] message changes only the order of their log lines. *)
Theorem callbacks_of_different_topics_commute
        (en : std_msgs.Bool) (cur tw : geometry_msgs.TwistStamped) (sys : System) :
  run [CurrentVelocityMsg cur; DbwEnabledMsg en] sys =
  run [DbwEnabledMsg en; CurrentVelocityMsg cur] sys
  /\ run [CurrentVelocityMsg cur; TwistCmdMsg tw] sys =
     run [TwistCmdMsg tw; CurrentVelocityMsg cur] sys
  /\ state_after [DbwEnabledMsg en; TwistCmdMsg tw] sys =
     state_after [TwistCmdMsg tw; DbwEnabledMsg en] sys
  /\ trace [DbwEnabledMsg en; TwistCmdMsg tw] sys =
     snd (step (DbwEnabledMsg en) sys) ++ snd (step (TwistCmdMsg tw) sys)
  /\ trace [TwistCmdMsg tw; DbwEnabledMsg en] sys =
     snd (step (TwistCmdMsg tw) sys) ++ snd (step (DbwEnabledMsg en) sys).
Proof.
  destruct sys as [self sd m]. destruct self as [rl ra cv la cnt en0 sr ctl].
  unfold state_after, trace, run, step, deliver,
    current_velocity_cb, dbw_enabled_cb, twist_cmd_cb,
    bind, modify, get, emit, ret, call_reset.
  destruct en as [[|]]; cbn -[py_ne Z.add];
    destruct (py_ne _ la); cbn; repeat split; reflexivity.
Qed.

(** ** What a published message looks like, and at which rate the loop sleeps *)

(** Every message the node ever publishes has its enable flag set; a
    throttle message is always a percentage and a brake message always a
    torque. *)
Theorem published_messages_are_enabled
        (sched : list Input) (sys : System) (e : Event) :
  In e (trace sched sys) ->
  match e with
  | EvThrottle m =>
      ThrottleCmd.enable m = true
      /\ ThrottleCmd.pedal_cmd_type m = ThrottleCmd.CMD_PERCENT
  | EvSteering m => SteeringCmd.enable m = true
  | EvBrake m =>
      BrakeCmd.enable m = true /\ BrakeCmd.pedal_cmd_type m = BrakeCmd.CMD_TORQUE
  | _ => True
  end.
Proof.
  intros Hin.
  destruct (trace_in_origin _ _ _ Hin) as (pre & i & post & -> & Hstep).
  destruct (is_command e) eqn:Hcmd; [|now destruct e].
  destruct (step_command_ready _ _ _ Hstep Hcmd) as (-> & _).
  unfold step in Hstep.
  destruct (iterate_shape (state_after pre sys)); simpl in Hstep; try tauto.
  - destruct Hstep as [<-|[<-|[<-|[<-|[<-|[]]]]]]; simpl; auto.
  - destruct Hstep as [<-|[]]. exact I.
Qed.

Lemma step_rate (i : Input) (sys : System) (rate : float) :
  main (fst (step i sys)) = InLoop rate -> main sys = InLoop rate.
Proof.
  destruct i as [msg|msg|msg| |]; unfold step, deliver.
  - now rewrite dbw_enabled_cb_run.
  - now rewrite current_velocity_cb_run.
  - now rewrite twist_cmd_cb_run.
  - destruct (iterate_shape sys); simpl; congruence.
  - trivial.
Qed.

Lemma rate_after (sched : list Input) (sys : System) (rate : float) :
  main (state_after sched sys) = InLoop rate -> main sys = InLoop rate.
Proof.
  revert sys. induction sched as [|i rest IH]; intros sys H; [exact H|].
  rewrite state_after_cons in H. now apply (step_rate i), IH.
Qed.

(** The loop is paced at 50 Hz throughout: every pacing sleep of every run
    from the constructed node is taken on the rate made from
    [sampling_rate], which no code path ever changes. *)
Theorem every_sleep_is_at_sampling_rate
        (c0 : ControllerState) (sched : list Input) (hz : float) :
  In (EvSleep hz) (trace sched (boot c0)) ->
  hz = 50%float /\ sampling_rate (node (state_after sched (boot c0))) = 50%float.
Proof.
  intros Hin. split.
  - destruct (trace_in_origin _ _ _ Hin) as (pre & i & post & -> & Hstep).
    destruct (step_active_effect _ _ _ Hstep eq_refl) as (-> & _).
    unfold step in Hstep.
    destruct (iterate_shape (state_after pre (boot c0)))
      as [|rate Hm Hs|rate c t b s Hm Hs Hr|rate c e Hm Hs Hr];
      simpl in Hstep; try tauto.
    + apply rate_after in Hm. simpl in Hm.
      destruct Hstep as [H|[H|[H|[H|[H|[]]]]]]; try discriminate.
      congruence.
    + destruct Hstep as [H|[]]. discriminate.
  - clear Hin. induction sched as [|i pre IH] using rev_ind; [reflexivity|].
    rewrite state_after_app, state_after_cons, state_after_nil.
    destruct i as [msg|msg|msg| |]; unfold step, deliver.
    + rewrite dbw_enabled_cb_run; simpl. now destruct (std_msgs.data msg).
    + now rewrite current_velocity_cb_run.
    + now rewrite twist_cmd_cb_run.
    + now destruct (iterate_node (state_after pre (boot c0))) as [c ->].
    + exact IH.
Qed.

(** * Statement-level interleaving

    The callbacks run on rospy's subscriber threads while the main thread is
    inside [loop] ([__init__] enters it at line 73 and never returns), so a
    callback can be handled between any two statements of a loop turn, and a
    loop turn can read the node between two statements of a callback.  The
    model below runs the same code in pieces: the main thread advances by one
    field read, call or publish at a time, the enable and target callbacks by
    one statement group at a time, and a schedule interleaves them freely.
    [control], [reset], a publish and a log line each happen in one piece. *)

(** The pieces of [publish]. *)
Definition publish_throttle (throttle : float) : M unit :=
  let tcmd := ThrottleCmd.new in
  let tcmd := ThrottleCmd.set_enable true tcmd in
  let tcmd := ThrottleCmd.set_pedal_cmd_type ThrottleCmd.CMD_PERCENT tcmd in
  let tcmd := ThrottleCmd.set_pedal_cmd throttle tcmd in
  emit (EvThrottle tcmd).

Definition publish_steering (steer : float) : M unit :=
  let scmd := SteeringCmd.new in
  let scmd := SteeringCmd.set_enable true scmd in
  let scmd := SteeringCmd.set_steering_wheel_angle_cmd steer scmd in
  emit (EvSteering scmd).

Definition publish_brake (brake : float) : M unit :=
  let bcmd := BrakeCmd.new in
  let bcmd := BrakeCmd.set_enable true bcmd in
  let bcmd := BrakeCmd.set_pedal_cmd_type BrakeCmd.CMD_TORQUE bcmd in
  let bcmd := BrakeCmd.set_pedal_cmd brake bcmd in
  emit (EvBrake bcmd).

(** The pieces of [dbw_enabled_cb]: line 111, line 112, lines 114-115. *)
Definition dbw_line_111 (msg : std_msgs.Bool) : M unit :=
  modify (set_dbw_enabled (std_msgs.data msg)).

Definition dbw_line_112 : M unit :=
  self <- get ;;
  emit (EvLogDbwEnabled (dbw_enabled self)).

Definition dbw_lines_114_115 : M unit :=
  self <- get ;;
  if negb (dbw_enabled self) then call_reset else ret tt.

(** The pieces of [twist_cmd_cb]: line 123, line 124, lines 127-131.  The
    diagnostic fields of lines 127-131 are read and written by this callback
    only. *)
Definition twist_line_123 (msg : geometry_msgs.TwistStamped) : M unit :=
  modify (set_required_vel_linear
            (Some (geometry_msgs.x (geometry_msgs.linear (geometry_msgs.twist msg))))).

Definition twist_line_124 (msg : geometry_msgs.TwistStamped) : M unit :=
  modify (set_required_vel_angular
            (Some (geometry_msgs.z (geometry_msgs.angular (geometry_msgs.twist msg))))).

Definition twist_lines_127_131 : M unit :=
  self <- get ;;
  (if py_ne (required_vel_angular self) (last_required_vel_angular self) then
     emit (EvLogVeer (required_vel_angular self) (count_required_vel_angular self)) ;;
     modify (set_count_required_vel_angular 0)
   else ret tt) ;;
  self <- get ;;
  modify (set_last_required_vel_angular (required_vel_angular self)) ;;
  self <- get ;;
  modify (set_count_required_vel_angular (count_required_vel_angular self + 1)).

(** Where the main thread stands inside [loop], with the values it has
    already read or received. *)
Inductive MainPc : Type :=
| AtWhile
| AtGuardCurrent
| AtGuardRequired
| AtGuardEnabled
| AtArgLinear
| AtArgAngular (lin : option float)
| AtArgCurrent (lin ang : option float)
| AtCall (lin ang cur : option float)
| AtPublishThrottle (throttle brake steer : float)
| AtPublishSteering (brake steer : float)
| AtPublishBrake (brake : float)
| AtSleep
| LoopReturned
| LoopDied (e : Exn).

(** Where the thread of [/vehicle/dbw_enabled] stands. *)
Inductive EnablePc : Type :=
| EnableIdle
| EnableAt112
| EnableAt114.

(** Where the thread of [/twist_cmd] stands. *)
Inductive TwistPc : Type :=
| TwistIdle
| TwistAt124 (msg : geometry_msgs.TwistStamped)
| TwistAt127.

Record Threads : Type := mkThreads {
  tnode : DBWNode;
  tshutdown : bool;
  trate : float;
  tmain : MainPc;
  tenable : EnablePc;
  ttwist : TwistPc
}.

Definition with_node (self : DBWNode) (s : Threads) : Threads :=
  mkThreads self (tshutdown s) (trate s) (tmain s) (tenable s) (ttwist s).

Definition with_main (pc : MainPc) (s : Threads) : Threads :=
  mkThreads (tnode s) (tshutdown s) (trate s) pc (tenable s) (ttwist s).

Definition with_enable (pc : EnablePc) (s : Threads) : Threads :=
  mkThreads (tnode s) (tshutdown s) (trate s) (tmain s) pc (ttwist s).

Definition with_twist (pc : TwistPc) (s : Threads) : Threads :=
  mkThreads (tnode s) (tshutdown s) (trate s) (tmain s) (tenable s) pc.

(** A piece of a method run on the node. *)
Definition perform (piece : M unit) (s : Threads) : Threads * list Event :=
  match piece (tnode s) with
  | (_, self, evs) => (with_node self s, evs)
  end.

(** What the scheduler can pick next: one piece of the main thread; a
    message taken up by its callback thread (which runs the callback's first
    statement; a thread still busy with the previous callback does not take
    it); the next piece of a running callback; the shutdown request. *)
Inductive Action : Type :=
| MainStep
| EnableRecv (msg : std_msgs.Bool)
| EnableStep
| CurrentRecv (msg : geometry_msgs.TwistStamped)
| TwistRecv (msg : geometry_msgs.TwistStamped)
| TwistStep
| ShutdownReq.

(** One piece of the main thread: lines 77-88, one read, call, publish or
    sleep at a time. *)
Definition main_step (s : Threads) : Threads * list Event :=
  match tmain s with
  | AtWhile =>
      (with_main (if tshutdown s then LoopReturned else AtGuardCurrent) s, [])
  | AtGuardCurrent =>
      (with_main (if is_None (current_vel_linear (tnode s))
                  then AtWhile else AtGuardRequired) s, [])
  | AtGuardRequired =>
      (with_main (if is_None (required_vel_linear (tnode s))
                  then AtWhile else AtGuardEnabled) s, [])
  | AtGuardEnabled =>
      (with_main (if negb (dbw_enabled (tnode s)) then AtWhile else AtArgLinear) s, [])
  | AtArgLinear =>
      (with_main (AtArgAngular (required_vel_linear (tnode s))) s, [])
  | AtArgAngular lin =>
      (with_main (AtArgCurrent lin (required_vel_angular (tnode s))) s, [])
  | AtArgCurrent lin ang =>
      (with_main (AtCall lin ang (current_vel_linear (tnode s))) s, [])
  | AtCall lin ang cur =>
      match call_control lin ang cur (tnode s) with
      | (Normal (throttle, brake, steer), self, evs) =>
          (with_main (AtPublishThrottle throttle brake steer) (with_node self s), evs)
      | (Raise e, self, evs) =>
          (with_main (LoopDied e) (with_node self s), evs)
      end
  | AtPublishThrottle throttle brake steer =>
      perform (publish_throttle throttle) (with_main (AtPublishSteering brake steer) s)
  | AtPublishSteering brake steer =>
      perform (publish_steering steer) (with_main (AtPublishBrake brake) s)
  | AtPublishBrake brake =>
      perform (publish_brake brake) (with_main AtSleep s)
  | AtSleep =>
      (with_main AtWhile s, [EvSleep (trate s)])
  | LoopReturned | LoopDied _ => (s, [])
  end.

Definition act (a : Action) (s : Threads) : Threads * list Event :=
  match a with
  | MainStep => main_step s
  | EnableRecv msg =>
      match tenable s with
      | EnableIdle => perform (dbw_line_111 msg) (with_enable EnableAt112 s)
      | _ => (s, [])
      end
  | EnableStep =>
      match tenable s with
      | EnableIdle => (s, [])
      | EnableAt112 => perform dbw_line_112 (with_enable EnableAt114 s)
      | EnableAt114 => perform dbw_lines_114_115 (with_enable EnableIdle s)
      end
  | CurrentRecv msg => perform (current_velocity_cb msg) s
  | TwistRecv msg =>
      match ttwist s with
      | TwistIdle => perform (twist_line_123 msg) (with_twist (TwistAt124 msg) s)
      | _ => (s, [])
      end
  | TwistStep =>
      match ttwist s with
      | TwistIdle => (s, [])
      | TwistAt124 msg => perform (twist_line_124 msg) (with_twist TwistAt127 s)
      | TwistAt127 => perform twist_lines_127_131 (with_twist TwistIdle s)
      end
  | ShutdownReq =>
      (mkThreads (tnode s) true (trate s) (tmain s) (tenable s) (ttwist s), [])
  end.

(** An interleaving, with the effects of its pieces in order. *)
Fixpoint interleave (sched : list Action) (s : Threads) : Threads * list Event :=
  match sched with
  | [] => (s, [])
  | a :: rest =>
      match act a s with
      | (s1, ev1) =>
          match interleave rest s1 with
          | (s2, ev2) => (s2, ev1 ++ ev2)
          end
      end
  end.

Definition threads_after (sched : list Action) (s : Threads) : Threads :=
  fst (interleave sched s).

Definition effects (sched : list Action) (s : Threads) : list Event :=
  snd (interleave sched s).

(** All threads as [__init__] leaves them when it reaches line 73. *)
Definition start (c : ControllerState) : Threads :=
  {| tnode := DBWNode_init c;
     tshutdown := false;
     trate := sampling_rate (DBWNode_init c);
     tmain := AtWhile;
     tenable := EnableIdle;
     ttwist := TwistIdle |}.

(** The step model inside the interleaving model: a state of the former
    with every thread between two callbacks and the loop, paced at [rate],
    at its test. *)
Definition at_rest (rate : float) (sys : System) : Threads :=
  {| tnode := node sys;
     tshutdown := is_shutdown sys;
     trate := rate;
     tmain := match main sys with
              | InLoop _ => AtWhile
              | Returned => LoopReturned
              | Uncaught e => LoopDied e
              end;
     tenable := EnableIdle;
     ttwist := TwistIdle |}.

(** The pieces one step of the step model consists of, run back to back. *)
Definition uninterrupted (i : Input) (sys : System) : list Action :=
  match i with
  | DbwEnabledMsg msg => [EnableRecv msg; EnableStep; EnableStep]
  | CurrentVelocityMsg msg => [CurrentRecv msg]
  | TwistCmdMsg msg => [TwistRecv msg; TwistStep; TwistStep]
  | ShutdownSignal => [ShutdownReq]
  | Iterate =>
      match main sys with
      | InLoop _ =>
          if is_shutdown sys then [MainStep]
          else if is_None (current_vel_linear (node sys)) then repeat MainStep 2
          else if is_None (required_vel_linear (node sys)) then repeat MainStep 3
          else if negb (dbw_enabled (node sys)) then repeat MainStep 4
          else
            match snd (controller_control (controller (node sys))
                         (required_vel_linear (node sys))
                         (required_vel_angular (node sys))
                         (current_vel_linear (node sys))) with
            | Normal _ => repeat MainStep 12
            | Raise _ => repeat MainStep 8
            end
      | _ => []
      end
  end.

(** Classes of actions and of program points. *)
(** The pieces of a whole run of the step model. *)
Fixpoint uninterrupted_run (sched : list Input) (sys : System) : list Action :=
  match sched with
  | [] => []
  | i :: rest => uninterrupted i sys ++ uninterrupted_run rest (fst (step i sys))
  end.

(** The rate a state of the step model is paced at, if it is in the loop. *)
Definition paced_at (rate : float) (sys : System) : Prop :=
  forall r, main sys = InLoop r -> r = rate.

Definition is_main (a : Action) : bool :=
  match a with MainStep => true | _ => false end.

Definition is_twist_action (a : Action) : bool :=
  match a with TwistRecv _ | TwistStep => true | _ => false end.

Definition is_twist_recv (a : Action) : bool :=
  match a with TwistRecv _ => true | _ => false end.

Definition is_current_recv (a : Action) : bool :=
  match a with CurrentRecv _ => true | _ => false end.

Definition is_enable_recv_true (a : Action) : bool :=
  match a with EnableRecv msg => std_msgs.data msg | _ => false end.

(** Past the test of lines 78-79 and not yet back at line 77. *)
Definition in_turn (pc : MainPc) : bool :=
  match pc with
  | AtArgLinear | AtArgAngular _ | AtArgCurrent _ _ | AtCall _ _ _
  | AtPublishThrottle _ _ _ | AtPublishSteering _ _ | AtPublishBrake _
  | AtSleep => true
  | _ => false
  end.

(** The target callback stands between its two writes. *)
Definition between_123_and_124 (pc : TwistPc) : bool :=
  match pc with TwistAt124 _ => true | _ => false end.

(** The main thread is inside one and the same turn at the start of [acts]
    and after each of them. *)
Fixpoint stays_in_turn (acts : list Action) (s : Threads) : bool :=
  in_turn (tmain s)
  && match acts with
     | [] => true
     | a :: rest => stays_in_turn rest (fst (act a s))
     end.

(** The value left by the latest [/current_velocity] message taken. *)
Fixpoint latest_current_taken (init : option float) (sched : list Action)
  : option float :=
  match sched with
  | [] => init
  | CurrentRecv msg :: rest =>
      latest_current_taken
        (Some (geometry_msgs.x (geometry_msgs.linear (geometry_msgs.twist msg)))) rest
  | _ :: rest => latest_current_taken init rest
  end.

(** How many more events of one kind the turn in progress can still make. *)
Definition owed_controls (pc : MainPc) : nat :=
  match pc with
  | AtArgLinear | AtArgAngular _ | AtArgCurrent _ _ | AtCall _ _ _ => 1%nat
  | _ => 0%nat
  end.

Definition owed_throttles (pc : MainPc) : nat :=
  match pc with
  | AtPublishThrottle _ _ _ => 1%nat
  | _ => owed_controls pc
  end.

Definition owed_steerings (pc : MainPc) : nat :=
  match pc with
  | AtPublishSteering _ _ => 1%nat
  | _ => owed_throttles pc
  end.

Definition owed_brakes (pc : MainPc) : nat :=
  match pc with
  | AtPublishBrake _ => 1%nat
  | _ => owed_steerings pc
  end.

Definition owed_sleeps (pc : MainPc) : nat :=
  match pc with
  | AtSleep => 1%nat
  | _ => owed_brakes pc
  end.

(** ** Basic facts about interleavings *)

Lemma interleave_app (a b : list Action) (s : Threads) :
  interleave (a ++ b) s =
  (threads_after b (threads_after a s), effects a s ++ effects b (threads_after a s)).
Proof.
  unfold threads_after, effects. revert s.
  induction a as [|x a IH]; intros s; simpl.
  - destruct (interleave b s); reflexivity.
  - destruct (act x s) as [s1 ev1]. rewrite IH.
    destruct (interleave a s1) as [s2 ev2]; simpl.
    now rewrite app_assoc.
Qed.

Lemma threads_after_app (a b : list Action) (s : Threads) :
  threads_after (a ++ b) s = threads_after b (threads_after a s).
Proof. unfold threads_after at 1. now rewrite interleave_app. Qed.

Lemma effects_app (a b : list Action) (s : Threads) :
  effects (a ++ b) s = effects a s ++ effects b (threads_after a s).
Proof. unfold effects at 1. now rewrite interleave_app. Qed.

Lemma threads_after_nil (s : Threads) : threads_after [] s = s.
Proof. reflexivity. Qed.

Lemma threads_after_cons (a : Action) (rest : list Action) (s : Threads) :
  threads_after (a :: rest) s = threads_after rest (fst (act a s)).
Proof.
  unfold threads_after; simpl. destruct (act a s) as [s1 ev1]; simpl.
  now destruct (interleave rest s1).
Qed.

Lemma effects_cons (a : Action) (rest : list Action) (s : Threads) :
  effects (a :: rest) s = snd (act a s) ++ effects rest (fst (act a s)).
Proof.
  unfold effects; simpl. destruct (act a s) as [s1 ev1]; simpl.
  now destruct (interleave rest s1).
Qed.

Lemma threads_after_snoc (pre : list Action) (a : Action) (s : Threads) :
  threads_after (pre ++ [a]) s = fst (act a (threads_after pre s)).
Proof. now rewrite threads_after_app, threads_after_cons, threads_after_nil. Qed.

Lemma effects_in_origin (sched : list Action) (s : Threads) (e : Event) :
  In e (effects sched s) ->
  exists pre a post,
    sched = pre ++ a :: post /\ In e (snd (act a (threads_after pre s))).
Proof.
  revert s. induction sched as [|a rest IH]; intros s Hin.
  - destruct Hin.
  - rewrite effects_cons in Hin. apply in_app_or in Hin as [Hin|Hin].
    + now exists [], a, rest.
    + destruct (IH _ Hin) as (pre & b & post & -> & Hb).
      exists (a :: pre), b, post. split; [reflexivity|].
      now rewrite threads_after_cons.
Qed.

(** ** The pieces put together are the methods *)

Lemma publish_in_pieces (throttle brake steer : float) (self : DBWNode) :
  publish throttle brake steer self =
  (publish_throttle throttle ;; publish_steering steer ;; publish_brake brake) self.
Proof. reflexivity. Qed.

Lemma dbw_enabled_cb_in_pieces (msg : std_msgs.Bool) (self : DBWNode) :
  dbw_enabled_cb msg self =
  (dbw_line_111 msg ;; dbw_line_112 ;; dbw_lines_114_115) self.
Proof.
  unfold dbw_enabled_cb, dbw_line_111, dbw_line_112, dbw_lines_114_115,
    bind, modify, get, emit, call_reset, ret; simpl.
  destruct (std_msgs.data msg); reflexivity.
Qed.

Lemma twist_cmd_cb_in_pieces (msg : geometry_msgs.TwistStamped) (self : DBWNode) :
  twist_cmd_cb msg self =
  (twist_line_123 msg ;; twist_line_124 msg ;; twist_lines_127_131) self.
Proof.
  unfold twist_cmd_cb, twist_line_123, twist_line_124, twist_lines_127_131,
    bind, modify, get, emit, ret; cbn -[py_ne Z.add].
  destruct (py_ne _ (last_required_vel_angular self)); reflexivity.
Qed.

Lemma twist_lines_127_131_run (self : DBWNode) :
  twist_lines_127_131 self =
  (Normal tt,
   mkDBWNode (required_vel_linear self) (required_vel_angular self)
             (current_vel_linear self) (required_vel_angular self)
             (if py_ne (required_vel_angular self) (last_required_vel_angular self)
              then 1 else count_required_vel_angular self + 1)
             (dbw_enabled self) (sampling_rate self) (controller self),
   if py_ne (required_vel_angular self) (last_required_vel_angular self)
   then [EvLogVeer (required_vel_angular self) (count_required_vel_angular self)]
   else []).
Proof.
  unfold twist_lines_127_131, bind, modify, get, emit, ret; cbn -[py_ne Z.add].
  destruct (py_ne _ _); reflexivity.
Qed.

Lemma dbw_lines_114_115_run (self : DBWNode) :
  dbw_lines_114_115 self =
  (Normal tt,
   (if dbw_enabled self then self
    else set_controller (controller_reset (controller self)) self),
   if dbw_enabled self then [] else [EvReset]).
Proof.
  unfold dbw_lines_114_115, bind, get, call_reset, ret; simpl.
  destruct (dbw_enabled self); reflexivity.
Qed.

(** A step of the step model is the interleaving in which its pieces run
    back to back, from threads at rest to threads at rest. *)
Lemma step_is_uninterrupted (rate : float) (i : Input) (sys : System) :
  paced_at rate sys ->
  interleave (uninterrupted i sys) (at_rest rate sys) =
  (at_rest rate (fst (step i sys)), snd (step i sys)).
Proof.
  intros Hrate. destruct sys as [self sd m].
  destruct i as [msg|msg|msg| |]; unfold uninterrupted.
  - destruct self as [rl ra cv la cnt en0 sr ctl]. destruct msg as [[|]]; reflexivity.
  - reflexivity.
  - destruct self as [rl ra cv la cnt en0 sr ctl].
    unfold step, deliver, interleave, act, perform, at_rest, with_twist, with_node,
      twist_cmd_cb, twist_line_123, twist_line_124, twist_lines_127_131,
      bind, modify, get, emit, ret.
    cbn -[py_ne Z.add]. destruct (py_ne _ la); reflexivity.
  - unfold step, iterate. cbn [main is_shutdown node].
    destruct m as [r| |e]; [|reflexivity|reflexivity].
    assert (r = rate) by now apply Hrate. subst r.
    destruct sd; [reflexivity|].
    destruct (not_ready self) eqn:Hready.
    + rewrite (loop_body_skip _ _ Hready). unfold not_ready in Hready.
      destruct (is_None (current_vel_linear self)) eqn:Hc;
        [cbn; unfold main_step; cbn; now rewrite Hc|].
      destruct (is_None (required_vel_linear self)) eqn:Hr;
        [cbn; unfold main_step; cbn; now rewrite Hc, Hr|].
      simpl in Hready. apply negb_true_iff in Hready. rewrite Hready.
      cbn; unfold main_step; cbn. rewrite Hc, Hr; cbn. now rewrite Hready.
    + unfold not_ready in Hready.
      apply orb_false_iff in Hready as [Hvel Hen].
      apply orb_false_iff in Hvel as [Hc Hr].
      assert (Hready : not_ready self = false).
      { unfold not_ready. now rewrite Hc, Hr, Hen. }
      apply negb_false_iff in Hen. rewrite Hc, Hr, Hen.
      destruct (controller_control (controller self) (required_vel_linear self)
                  (required_vel_angular self) (current_vel_linear self))
        as [c [[[throttle brake] steer]|e]] eqn:Hctl.
      * rewrite (loop_body_active _ _ _ _ _ _ Hready Hctl).
        cbn; unfold main_step, call_control; cbn. rewrite Hc, Hr; cbn.
        rewrite Hen; cbn. now rewrite Hctl.
      * rewrite (loop_body_fault _ _ _ _ Hready Hctl).
        cbn; unfold main_step, call_control; cbn. rewrite Hc, Hr; cbn.
        rewrite Hen; cbn. now rewrite Hctl.
  - reflexivity.
Qed.

Lemma step_keeps_pace (rate : float) (i : Input) (sys : System) :
  paced_at rate sys -> paced_at rate (fst (step i sys)).
Proof.
  intros Hrate r Hr. apply Hrate. now apply (step_rate i).
Qed.

(** Every run of the step model is the interleaving of its pieces run back
    to back: same final node, same effects in the same order. *)
Lemma run_is_uninterrupted (c0 : ControllerState) (sched : list Input) :
  interleave (uninterrupted_run sched (boot c0)) (start c0) =
  (at_rest 50%float (state_after sched (boot c0)), trace sched (boot c0)).
Proof.
  change (start c0) with (at_rest 50%float (boot c0)).
  assert (Hrate : paced_at 50%float (boot c0)).
  { intros r Hr. simpl in Hr. congruence. }
  revert Hrate. generalize (boot c0) as sys.
  induction sched as [|i rest IH]; intros sys Hrate; [reflexivity|].
  cbn [uninterrupted_run]. rewrite interleave_app.
  unfold threads_after, effects. rewrite (step_is_uninterrupted _ _ _ Hrate).
  cbn [fst snd]. rewrite (IH _ (step_keeps_pace _ _ _ Hrate)).
  now rewrite state_after_cons, trace_cons.
Qed.

(** ** What one piece does *)

Lemma perform_run (piece : M unit) (s : Threads) :
  perform piece s =
  (with_node (snd (fst (piece (tnode s)))) s, snd (piece (tnode s))).
Proof. unfold perform. now destruct (piece (tnode s)) as [[r self] evs]. Qed.

Ltac open_act :=
  unfold act, main_step, call_control;
  rewrite ?perform_run, ?twist_lines_127_131_run, ?dbw_lines_114_115_run;
  unfold publish_throttle, publish_steering, publish_brake, current_velocity_cb,
    dbw_line_111, dbw_line_112, twist_line_123, twist_line_124,
    modify, bind, get, emit, ret, with_main, with_node, with_enable, with_twist;
  cbn -[py_ne Z.add].

Ltac split_act a s :=
  destruct s as [[rl ra cv la cnt en0 sr ctl] sd rate pc en tw];
  destruct a as [|amsg|  |amsg|amsg| |];
  [ destruct pc as [ | | | | |plin|plin pang|plin pang pcur|pthrottle pbrake psteer
                     |pbrake psteer|pbrake| | |pexn]
  | destruct en | destruct en | | destruct tw as [|tmsg|] | destruct tw as [|tmsg|] | ];
  open_act.

Ltac break_goal :=
  repeat match goal with
         | |- context [if ?b then _ else _] => destruct b eqn:?
         | |- context [match ?x with _ => _ end] => destruct x eqn:?
         end.

Ltac act_cases a s :=
  split_act a s;
  try match goal with
      | |- context [controller_control ?c ?l ?a ?u] =>
          destruct (controller_control c l a u) as [? [[[? ?] ?]|?]]
      end;
  cbn -[py_ne Z.add];
  break_goal; cbn -[py_ne Z.add] in *.

Lemma act_other_thread (a : Action) (s : Threads) :
  is_main a = false -> tmain (fst (act a s)) = tmain s.
Proof.
  intros Ha. act_cases a s; try discriminate; reflexivity.
Qed.

Lemma act_target_thread (a : Action) (s : Threads) :
  is_twist_action a = false ->
  ttwist (fst (act a s)) = ttwist s
  /\ target_fields (tnode (fst (act a s))) = target_fields (tnode s).
Proof.
  intros Ha. act_cases a s; try discriminate; now split.
Qed.

Lemma act_keeps_set (a : Action) (s : Threads) :
  (is_None (required_vel_linear (tnode s)) = false ->
   is_None (required_vel_linear (tnode (fst (act a s)))) = false)
  /\ (is_None (required_vel_angular (tnode s)) = false ->
      is_None (required_vel_angular (tnode (fst (act a s)))) = false)
  /\ (is_None (current_vel_linear (tnode s)) = false ->
      is_None (current_vel_linear (tnode (fst (act a s)))) = false).
Proof.
  act_cases a s; now repeat split.
Qed.

Lemma act_origin (a : Action) (s : Threads) :
  (is_None (required_vel_linear (tnode (fst (act a s)))) = false ->
   is_None (required_vel_linear (tnode s)) = false \/ is_twist_recv a = true)
  /\ (is_None (current_vel_linear (tnode (fst (act a s)))) = false ->
      is_None (current_vel_linear (tnode s)) = false \/ is_current_recv a = true)
  /\ (dbw_enabled (tnode (fst (act a s))) = true ->
      dbw_enabled (tnode s) = true \/ is_enable_recv_true a = true).
Proof.
  act_cases a s; repeat split; auto.
Qed.

Lemma set_after (sched : list Action) (s : Threads) :
  (is_None (required_vel_linear (tnode s)) = false ->
   is_None (required_vel_linear (tnode (threads_after sched s))) = false)
  /\ (is_None (required_vel_angular (tnode s)) = false ->
      is_None (required_vel_angular (tnode (threads_after sched s))) = false)
  /\ (is_None (current_vel_linear (tnode s)) = false ->
      is_None (current_vel_linear (tnode (threads_after sched s))) = false).
Proof.
  revert s. induction sched as [|a rest IH]; intros s; [now repeat split|].
  rewrite threads_after_cons.
  destruct (IH (fst (act a s))) as (H1 & H2 & H3).
  destruct (act_keeps_set a s) as (K1 & K2 & K3).
  repeat split; auto.
Qed.

Lemma origin_after (sched : list Action) (s : Threads) :
  (is_None (required_vel_linear (tnode (threads_after sched s))) = false ->
   is_None (required_vel_linear (tnode s)) = false
   \/ existsb is_twist_recv sched = true)
  /\ (is_None (current_vel_linear (tnode (threads_after sched s))) = false ->
      is_None (current_vel_linear (tnode s)) = false
      \/ existsb is_current_recv sched = true)
  /\ (dbw_enabled (tnode (threads_after sched s)) = true ->
      dbw_enabled (tnode s) = true
      \/ existsb is_enable_recv_true sched = true).
Proof.
  revert s. induction sched as [|a rest IH]; intros s; [now repeat split; auto|].
  rewrite threads_after_cons. simpl existsb.
  destruct (IH (fst (act a s))) as (H1 & H2 & H3).
  destruct (act_origin a s) as (K1 & K2 & K3).
  repeat split; intros H.
  - destruct (H1 H) as [H'|H']; [destruct (K1 H') as [->| ->]; auto|].
    rewrite H'. right. apply orb_true_r.
  - destruct (H2 H) as [H'|H']; [destruct (K2 H') as [->| ->]; auto|].
    rewrite H'. right. apply orb_true_r.
  - destruct (H3 H) as [H'|H']; [destruct (K3 H') as [->| ->]; auto|].
    rewrite H'. right. apply orb_true_r.
Qed.

Lemma other_threads_after (mid : list Action) (s : Threads) :
  forallb (fun a => negb (is_main a)) mid = true ->
  tmain (threads_after mid s) = tmain s.
Proof.
  revert s. induction mid as [|a rest IH]; intros s H; [reflexivity|].
  simpl in H. apply andb_true_iff in H as [Ha Hrest].
  rewrite threads_after_cons, (IH _ Hrest).
  apply act_other_thread. now apply negb_true_iff.
Qed.

Lemma target_untouched_after (mid : list Action) (s : Threads) :
  forallb (fun a => negb (is_twist_action a)) mid = true ->
  ttwist (threads_after mid s) = ttwist s
  /\ target_fields (tnode (threads_after mid s)) = target_fields (tnode s).
Proof.
  revert s. induction mid as [|a rest IH]; intros s H; [now split|].
  simpl in H. apply andb_true_iff in H as [Ha Hrest].
  rewrite threads_after_cons. destruct (IH (fst (act a s)) Hrest) as [-> ->].
  apply act_target_thread. now apply negb_true_iff.
Qed.

(** ** What the main thread knows at each program point *)

(** The fields the main thread has found set stay set, and the values it
    carries were read from set fields. *)
Definition pc_sound (s : Threads) : bool :=
  match tmain s with
  | AtWhile | AtGuardCurrent | LoopReturned | LoopDied _ => true
  | AtGuardRequired => negb (is_None (current_vel_linear (tnode s)))
  | AtGuardEnabled | AtArgLinear =>
      negb (is_None (current_vel_linear (tnode s)))
      && negb (is_None (required_vel_linear (tnode s)))
  | AtArgAngular lin | AtArgCurrent lin _ =>
      negb (is_None (current_vel_linear (tnode s)))
      && negb (is_None (required_vel_linear (tnode s)))
      && negb (is_None lin)
  | AtCall lin _ cur =>
      negb (is_None (required_vel_linear (tnode s)))
      && negb (is_None lin) && negb (is_None cur)
  | AtPublishThrottle _ _ _ | AtPublishSteering _ _ | AtPublishBrake _ | AtSleep =>
      negb (is_None (required_vel_linear (tnode s)))
  end.

Lemma act_sound (a : Action) (s : Threads) :
  pc_sound s = true -> pc_sound (fst (act a s)) = true.
Proof.
  unfold pc_sound. act_cases a s; intros H; try exact H; try reflexivity;
    try discriminate;
    repeat match goal with
           | x : option float |- _ => destruct x
           end; cbn in *; try discriminate; try reflexivity.
Qed.

Lemma sound_after (sched : list Action) (s : Threads) :
  pc_sound s = true -> pc_sound (threads_after sched s) = true.
Proof.
  revert s. induction sched as [|a rest IH]; intros s H; [exact H|].
  rewrite threads_after_cons. now apply IH, act_sound.
Qed.

(** ** Which piece makes which effect *)

Lemma act_command (a : Action) (s : Threads) (e : Event) :
  In e (snd (act a s)) -> is_command e = true ->
  a = MainStep /\ in_turn (tmain s) = true.
Proof.
  act_cases a s; intros Hin Hcmd;
    repeat (destruct Hin as [Hin|Hin];
            [subst e; try discriminate; now split|]);
    destruct Hin.
Qed.

Lemma act_control (a : Action) (s : Threads) (lin ang cur : option float) :
  In (EvControl lin ang cur) (snd (act a s)) ->
  a = MainStep /\ tmain s = AtCall lin ang cur.
Proof.
  act_cases a s; intros Hin;
    repeat (destruct Hin as [Hin|Hin];
            [try discriminate; try (inversion Hin; now split)|]);
    destruct Hin.
Qed.

Lemma act_call (s : Threads) (lin ang cur : option float) :
  tmain s = AtCall lin ang cur ->
  snd (act MainStep s) = [EvControl lin ang cur].
Proof.
  intros Hpc. destruct s as [self sd rate pc en tw]. simpl in Hpc. subst pc.
  unfold act, main_step, call_control; cbn.
  now destruct (controller_control (controller self) lin ang cur)
    as [c [[[t b] st]|e]].
Qed.

(** ** From the gate test to the publish *)

Lemma act_enters_turn (a : Action) (s : Threads) :
  in_turn (tmain s) = false ->
  in_turn (tmain (fst (act a s))) = true ->
  a = MainStep /\ tmain s = AtGuardEnabled /\ dbw_enabled (tnode s) = true.
Proof.
  act_cases a s; intros Hout Hin; try discriminate; try congruence.
  destruct en0; try discriminate. now repeat split.
Qed.

Lemma stays_in_turn_snoc (mid : list Action) (a : Action) (s : Threads) :
  stays_in_turn (mid ++ [a]) s =
  stays_in_turn mid s && in_turn (tmain (threads_after (mid ++ [a]) s)).
Proof.
  revert s. induction mid as [|b mid IH]; intros s.
  - cbn [app stays_in_turn]. rewrite threads_after_cons, threads_after_nil.
    now rewrite !andb_true_r.
  - cbn [app stays_in_turn]. rewrite IH, threads_after_cons.
    now rewrite andb_assoc.
Qed.

(** Whenever the main thread is inside a turn, that turn began with a gate
    test that read [dbw_enabled] as true, and the thread has been inside
    this one turn ever since. *)
Lemma turn_origin (c0 : ControllerState) (pre : list Action) :
  in_turn (tmain (threads_after pre (start c0))) = true ->
  exists before during,
    pre = before ++ MainStep :: during
    /\ tmain (threads_after before (start c0)) = AtGuardEnabled
    /\ dbw_enabled (tnode (threads_after before (start c0))) = true
    /\ stays_in_turn during (threads_after (before ++ [MainStep]) (start c0)) = true.
Proof.
  induction pre as [|a pre IH] using rev_ind; intros Hin; [discriminate|].
  destruct (in_turn (tmain (threads_after pre (start c0)))) eqn:Hbefore.
  - destruct (IH eq_refl) as (before & during & -> & Hpc & Hen & Hstay).
    exists before, (during ++ [a]). repeat split; try assumption.
    + now rewrite <- app_assoc.
    + rewrite stays_in_turn_snoc, Hstay. cbn [andb].
      rewrite <- threads_after_app.
      replace ((before ++ [MainStep]) ++ during ++ [a])
        with ((before ++ MainStep :: during) ++ [a]); [exact Hin|].
      now rewrite <- !app_assoc.
  - rewrite threads_after_snoc in Hin.
    destruct (act_enters_turn _ _ Hbefore Hin) as (-> & Hpc & Hen).
    exists pre, []. repeat split; try assumption.
    cbn [stays_in_turn]. rewrite andb_true_r. now rewrite threads_after_snoc.
Qed.

(** ** The target pair in the node *)

(** What the target fields hold, given the messages taken so far: while the
    target callback stands between its two writes the linear field is
    already the new message's; otherwise the two fields are still unset or
    are the two fields of one message. *)
Definition pair_known (pre : list Action) (s : Threads) : Prop :=
  match ttwist s with
  | TwistAt124 msg =>
      In (TwistRecv msg) pre
      /\ required_vel_linear (tnode s) = fst (target_of_msg msg)
  | _ =>
      target_fields (tnode s) = (None, None)
      \/ exists msg, In (TwistRecv msg) pre
                     /\ target_fields (tnode s) = target_of_msg msg
  end.

Lemma act_pair_known (pre : list Action) (a : Action) (s : Threads) :
  pair_known pre s -> pair_known (pre ++ [a]) (fst (act a s)).
Proof.
  assert (Hmono : forall m, In (TwistRecv m) pre -> In (TwistRecv m) (pre ++ [a])).
  { intros m Hm. apply in_or_app. now left. }
  unfold pair_known, target_fields. act_cases a s; intros H;
    try (destruct H as [H|(m0 & Hm & H)];
         [now left | right; exists m0; split; [now apply Hmono | exact H]]);
    try (destruct H as [Hm H]; split; [now apply Hmono | exact H]).
  - split; [apply in_or_app; right; now left | reflexivity].
  - destruct H as [Hm H]. right. exists tmsg. split; [now apply Hmono|].
    unfold target_of_msg in *. cbn in *. now rewrite H.
Qed.

Lemma pair_known_after (c0 : ControllerState) (pre : list Action) :
  pair_known pre (threads_after pre (start c0)).
Proof.
  induction pre as [|a pre IH] using rev_ind; [now left|].
  rewrite threads_after_snoc. now apply act_pair_known.
Qed.

(** ** The measured velocity in the node *)

Lemma act_current_value (a : Action) (s : Threads) :
  current_vel_linear (tnode (fst (act a s))) =
  latest_current_taken (current_vel_linear (tnode s)) [a].
Proof. act_cases a s; reflexivity. Qed.

Lemma current_value_taken (sched : list Action) (s : Threads) :
  current_vel_linear (tnode (threads_after sched s)) =
  latest_current_taken (current_vel_linear (tnode s)) sched.
Proof.
  revert s. induction sched as [|a rest IH]; intros s; [reflexivity|].
  rewrite threads_after_cons, IH, act_current_value. now destruct a.
Qed.

(** ** After a disable *)

Lemma act_owed (a : Action) (s : Threads) :
  dbw_enabled (tnode s) = false ->
  is_enable_recv_true a = false ->
  dbw_enabled (tnode (fst (act a s))) = false
  /\ (count_events is_control (snd (act a s)) + owed_controls (tmain (fst (act a s)))
      <= owed_controls (tmain s))%nat
  /\ (count_events is_throttle (snd (act a s)) + owed_throttles (tmain (fst (act a s)))
      <= owed_throttles (tmain s))%nat
  /\ (count_events is_steering (snd (act a s)) + owed_steerings (tmain (fst (act a s)))
      <= owed_steerings (tmain s))%nat
  /\ (count_events is_brake (snd (act a s)) + owed_brakes (tmain (fst (act a s)))
      <= owed_brakes (tmain s))%nat
  /\ (count_events is_sleep (snd (act a s)) + owed_sleeps (tmain (fst (act a s)))
      <= owed_sleeps (tmain s))%nat.
Proof.
  unfold count_events.
  act_cases a s; intros Hoff Hrecv; try discriminate; subst;
    cbn; repeat split; try reflexivity; try lia; try congruence.
Qed.

Lemma owed_after (sched : list Action) (s : Threads) :
  dbw_enabled (tnode s) = false ->
  existsb is_enable_recv_true sched = false ->
  (count_events is_control (effects sched s) <= owed_controls (tmain s))%nat
  /\ (count_events is_throttle (effects sched s) <= owed_throttles (tmain s))%nat
  /\ (count_events is_steering (effects sched s) <= owed_steerings (tmain s))%nat
  /\ (count_events is_brake (effects sched s) <= owed_brakes (tmain s))%nat
  /\ (count_events is_sleep (effects sched s) <= owed_sleeps (tmain s))%nat.
Proof.
  revert s. induction sched as [|a rest IH]; intros s Hoff Hnone.
  - unfold effects, count_events; simpl. repeat split; lia.
  - simpl in Hnone. apply orb_false_iff in Hnone as [Ha Hrest].
    destruct (act_owed a s Hoff Ha) as (Hoff' & Hc & Ht & Hs & Hb & Hz).
    destruct (IH _ Hoff' Hrest) as (Hc' & Ht' & Hs' & Hb' & Hz').
    rewrite effects_cons, !count_events_app. repeat split; lia.
Qed.

(** ** The controller under interleaving *)

Lemma act_replay (a : Action) (s : Threads) :
  controller (tnode (fst (act a s))) =
  replay (snd (act a s)) (controller (tnode s)).
Proof.
  destruct s as [self sd rate pc en tw].
  destruct a as [|msg|  |msg|msg| |];
    [destruct pc | destruct en | destruct en | | destruct tw | destruct tw | ];
    unfold act, main_step, call_control;
    rewrite ?perform_run, ?twist_lines_127_131_run, ?dbw_lines_114_115_run;
    cbn -[py_ne Z.add]; try reflexivity.
  - destruct (controller_control (controller self) lin ang cur)
      as [c [[[t b] st]|e]] eqn:Hctl; cbn; now rewrite Hctl.
  - now destruct (dbw_enabled self).
  - now destruct (py_ne _ _).
Qed.

Lemma controller_replay_interleaved (sched : list Action) (s : Threads) :
  controller (tnode (threads_after sched s)) =
  replay (effects sched s) (controller (tnode s)).
Proof.
  revert s. induction sched as [|a rest IH]; intros s; [reflexivity|].
  now rewrite threads_after_cons, effects_cons, replay_app, IH, act_replay.
Qed.

Lemma replay_without_control (evs : list Event) (c : ControllerState) :
  count_events is_control evs = 0%nat ->
  exists c', replay evs (controller_reset c) = controller_reset c'.
Proof.
  revert c. induction evs as [|e evs IH]; intros c H; [now exists c|].
  unfold count_events in *.
  destruct e; simpl in *; try apply IH; try assumption; discriminate.
Qed.

(** ** The argument reads of one turn *)

Lemma main_reads_linear (s : Threads) :
  tmain s = AtArgLinear ->
  act MainStep s = (with_main (AtArgAngular (required_vel_linear (tnode s))) s, []).
Proof. intros H. unfold act, main_step. now rewrite H. Qed.

Lemma main_reads_angular (s : Threads) (lin : option float) :
  tmain s = AtArgAngular lin ->
  act MainStep s =
  (with_main (AtArgCurrent lin (required_vel_angular (tnode s))) s, []).
Proof. intros H. unfold act, main_step. now rewrite H. Qed.

Lemma main_reads_current (s : Threads) (lin ang : option float) :
  tmain s = AtArgCurrent lin ang ->
  act MainStep s =
  (with_main (AtCall lin ang (current_vel_linear (tnode s))) s, []).
Proof. intros H. unfold act, main_step. now rewrite H. Qed.

(** Once the main thread has read the angular target, the control call of
    that turn receives the two target values it carries, whatever the other
    threads do in the meantime. *)
Lemma call_after_angular_read
      (s : Threads) (lin ang : option float) (mid2 mid3 : list Action) :
  tmain s = AtArgCurrent lin ang ->
  forallb (fun a => negb (is_main a)) mid2 = true ->
  forallb (fun a => negb (is_main a)) mid3 = true ->
  snd (act MainStep (threads_after (mid2 ++ MainStep :: mid3) s)) =
  [EvControl lin ang (current_vel_linear (tnode (threads_after mid2 s)))].
Proof.
  intros Hpc H2 H3.
  rewrite threads_after_app, threads_after_cons.
  apply act_call. rewrite (other_threads_after _ _ H3).
  rewrite (main_reads_current _ lin ang); [reflexivity|].
  now rewrite (other_threads_after _ _ H2).
Qed.

(** ** The gate under interleaving (C1) *)

Lemma turn_needs_gate (c0 : ControllerState) (pre : list Action) :
  in_turn (tmain (threads_after pre (start c0))) = true ->
  exists before during,
    pre = before ++ MainStep :: during
    /\ tmain (threads_after before (start c0)) = AtGuardEnabled
    /\ dbw_enabled (tnode (threads_after before (start c0))) = true
    /\ is_None (required_vel_linear (tnode (threads_after before (start c0)))) = false
    /\ is_None (current_vel_linear (tnode (threads_after before (start c0)))) = false
    /\ stays_in_turn during (threads_after (before ++ [MainStep]) (start c0)) = true
    /\ existsb is_enable_recv_true before = true
    /\ existsb is_twist_recv before = true
    /\ existsb is_current_recv before = true.
Proof.
  intros Hin.
  destruct (turn_origin _ _ Hin) as (before & during & -> & Hpc & Hen & Hstay).
  pose proof (sound_after before (start c0) eq_refl) as Hsound.
  unfold pc_sound in Hsound. rewrite Hpc in Hsound.
  apply andb_true_iff in Hsound as [Hcur Hreq].
  apply negb_true_iff in Hcur, Hreq.
  destruct (origin_after before (start c0)) as (O1 & O2 & O3).
  exists before, during. repeat split; try assumption.
  - destruct (O3 Hen) as [H|H]; [discriminate | exact H].
  - destruct (O1 Hreq) as [H|H]; [discriminate | exact H].
  - destruct (O2 Hcur) as [H|H]; [discriminate | exact H].
Qed.

(** C1, as the code has it.  A command is published only by the main
    thread, inside a loop turn whose test of lines 78-79 read [dbw_enabled]
    as true and found both velocities set, so after an enable message
    carrying true, a target-velocity message and a current-velocity message
    had been taken; the thread has stayed inside that one turn since the
    test, while [dbw_enabled] itself may have changed.  Hence no command is
    ever published when every enable message carries false, or when one of
    the two velocities is never delivered. *)
Theorem commands_only_after_gate_test (c0 : ControllerState) :
  (forall (pre : list Action) (a : Action) (e : Event),
      In e (snd (act a (threads_after pre (start c0)))) ->
      is_command e = true ->
      a = MainStep
      /\ exists before during,
          pre = before ++ MainStep :: during
          /\ tmain (threads_after before (start c0)) = AtGuardEnabled
          /\ dbw_enabled (tnode (threads_after before (start c0))) = true
          /\ is_None (required_vel_linear (tnode (threads_after before (start c0))))
             = false
          /\ is_None (current_vel_linear (tnode (threads_after before (start c0))))
             = false
          /\ stays_in_turn during (threads_after (before ++ [MainStep]) (start c0))
             = true
          /\ existsb is_enable_recv_true before = true
          /\ existsb is_twist_recv before = true
          /\ existsb is_current_recv before = true)
  /\ (forall sched : list Action,
         existsb is_enable_recv_true sched = false ->
         commands (effects sched (start c0)) = [])
  /\ (forall sched : list Action,
         existsb is_twist_recv sched = false \/
         existsb is_current_recv sched = false ->
         commands (effects sched (start c0)) = []).
Proof.
  split; [|split].
  - intros pre a e Hin Hcmd.
    destruct (act_command _ _ _ Hin Hcmd) as [-> Hturn].
    split; [reflexivity|]. now apply turn_needs_gate.
  - intros sched Hnone. apply commands_nil. intros e Hin Hcmd.
    destruct (effects_in_origin _ _ _ Hin) as (pre & a & post & -> & Hact).
    destruct (act_command _ _ _ Hact Hcmd) as [-> Hturn].
    destruct (turn_needs_gate _ _ Hturn)
      as (before & during & -> & _ & _ & _ & _ & _ & Hen & _).
    rewrite !existsb_app, Hen in Hnone. discriminate.
  - intros sched Hnever. apply commands_nil. intros e Hin Hcmd.
    destruct (effects_in_origin _ _ _ Hin) as (pre & a & post & -> & Hact).
    destruct (act_command _ _ _ Hact Hcmd) as [-> Hturn].
    destruct (turn_needs_gate _ _ Hturn)
      as (before & during & -> & _ & _ & _ & _ & _ & _ & Htw & Hcv).
    rewrite !existsb_app, Htw, Hcv in Hnever. simpl in Hnever.
    destruct Hnever; discriminate.
Qed.

(** ** The target pair under interleaving (C6, C9) *)

Lemma pair_outside_window (c0 : ControllerState) (pre : list Action) :
  between_123_and_124 (ttwist (threads_after pre (start c0))) = false ->
  target_fields (tnode (threads_after pre (start c0))) = (None, None)
  \/ exists msg, In (TwistRecv msg) pre
                 /\ target_fields (tnode (threads_after pre (start c0)))
                    = target_of_msg msg.
Proof.
  intros Hout. pose proof (pair_known_after c0 pre) as H.
  unfold pair_known in H.
  destruct (ttwist (threads_after pre (start c0))); [exact H | discriminate | exact H].
Qed.

(** C6, as the code has it.  The two target fields are written by two
    separate statements and read by two separate reads, with nothing to keep
    the other thread out.  A turn whose read of the linear target (line 83)
    happens while no target callback stands between its lines 123 and 124,
    and during whose two reads (lines 83-84) the target thread does not run,
    passes to [control] the two fields of one message that was taken
    before. *)
Theorem target_pair_from_one_message_outside_window
        (c0 : ControllerState) (pre mid1 mid2 mid3 : list Action) :
  tmain (threads_after pre (start c0)) = AtArgLinear ->
  between_123_and_124 (ttwist (threads_after pre (start c0))) = false ->
  forallb (fun a => negb (is_main a) && negb (is_twist_action a)) mid1 = true ->
  forallb (fun a => negb (is_main a)) mid2 = true ->
  forallb (fun a => negb (is_main a)) mid3 = true ->
  exists (msg : geometry_msgs.TwistStamped) (cur : option float),
    In (TwistRecv msg) pre
    /\ snd (act MainStep
                (threads_after
                   (pre ++ MainStep :: mid1 ++ MainStep :: mid2 ++ MainStep :: mid3)
                   (start c0)))
       = [EvControl (fst (target_of_msg msg)) (snd (target_of_msg msg)) cur].
Proof.
  intros Hpc Hout H1 H2 H3.
  set (s := threads_after pre (start c0)) in *.
  assert (Hmain1 : forallb (fun a => negb (is_main a)) mid1 = true).
  { apply forallb_forall. intros a Ha.
    apply (proj1 (forallb_forall _ _) H1) in Ha. now apply andb_true_iff in Ha. }
  assert (Htw1 : forallb (fun a => negb (is_twist_action a)) mid1 = true).
  { apply forallb_forall. intros a Ha.
    apply (proj1 (forallb_forall _ _) H1) in Ha. now apply andb_true_iff in Ha. }
  pose proof (sound_after pre (start c0) eq_refl) as Hsound.
  fold s in Hsound. unfold pc_sound in Hsound. rewrite Hpc in Hsound.
  apply andb_true_iff in Hsound as [_ Hreq]. apply negb_true_iff in Hreq.
  destruct (pair_outside_window c0 pre Hout) as [Hnone|(msg & Hin & Hpair)];
    fold s in Hnone || fold s in Hpair.
  { unfold target_fields in Hnone. injection Hnone as Hl Ha.
    rewrite Hl in Hreq. discriminate. }
  set (s1 := fst (act MainStep s)).
  assert (Hs1 : tmain s1 = AtArgAngular (required_vel_linear (tnode s))
                /\ target_fields (tnode s1) = target_fields (tnode s)).
  { unfold s1. rewrite (main_reads_linear _ Hpc). now split. }
  destruct Hs1 as [Hpc1 Hf1].
  set (s2 := threads_after mid1 s1).
  assert (Hpc2 : tmain s2 = AtArgAngular (required_vel_linear (tnode s))).
  { unfold s2. now rewrite (other_threads_after _ _ Hmain1). }
  assert (Hf2 : target_fields (tnode s2) = target_fields (tnode s)).
  { unfold s2. destruct (target_untouched_after mid1 s1 Htw1) as [_ ->]. exact Hf1. }
  set (s3 := fst (act MainStep s2)).
  assert (Hpc3 : tmain s3 = AtArgCurrent (required_vel_linear (tnode s))
                                         (required_vel_angular (tnode s))).
  { unfold s3. rewrite (main_reads_angular _ _ Hpc2). cbn.
    unfold target_fields in Hf2. injection Hf2 as Hl Ha. now rewrite Ha. }
  exists msg, (current_vel_linear (tnode (threads_after mid2 s3))).
  split; [exact Hin|].
  replace (threads_after
             (pre ++ MainStep :: mid1 ++ MainStep :: mid2 ++ MainStep :: mid3)
             (start c0))
    with (threads_after (mid2 ++ MainStep :: mid3) s3).
  - rewrite (call_after_angular_read s3 _ _ mid2 mid3 Hpc3 H2 H3).
    unfold target_fields in Hpair. injection Hpair as Hl Ha.
    now rewrite Hl, Ha.
  - unfold s3, s2, s1, s.
    rewrite (threads_after_app pre), threads_after_cons.
    rewrite (threads_after_app mid1), threads_after_cons.
    reflexivity.
Qed.

(** C9, as the code has it.  In every reachable state in which no target
    callback stands between its lines 123 and 124, the angular target is set
    exactly when the linear target is.  Every [control] call receives a set
    linear target and a set current velocity.  A turn that reads the angular
    target (line 84) while no target callback stands between those two lines
    passes a set angular target to [control]. *)
Theorem angular_target_set_outside_write_window (c0 : ControllerState) :
  (forall pre : list Action,
      between_123_and_124 (ttwist (threads_after pre (start c0))) = false ->
      is_None (required_vel_angular (tnode (threads_after pre (start c0)))) =
      is_None (required_vel_linear (tnode (threads_after pre (start c0)))))
  /\ (forall (pre : list Action) (a : Action) (lin ang cur : option float),
         In (EvControl lin ang cur) (snd (act a (threads_after pre (start c0)))) ->
         exists l c : float, lin = Some l /\ cur = Some c)
  /\ (forall (pre mid2 mid3 : list Action) (lin : option float),
         tmain (threads_after pre (start c0)) = AtArgAngular lin ->
         between_123_and_124 (ttwist (threads_after pre (start c0))) = false ->
         forallb (fun a => negb (is_main a)) mid2 = true ->
         forallb (fun a => negb (is_main a)) mid3 = true ->
         exists (ang : float) (cur : option float),
           snd (act MainStep
                    (threads_after (pre ++ MainStep :: mid2 ++ MainStep :: mid3)
                                   (start c0)))
           = [EvControl lin (Some ang) cur]).
Proof.
  split; [|split].
  - intros pre Hout.
    destruct (pair_outside_window c0 pre Hout) as [H|(msg & _ & H)];
      unfold target_fields, target_of_msg in H; injection H as Hl Ha;
      now rewrite Hl, Ha.
  - intros pre a lin ang cur Hin.
    destruct (act_control _ _ _ _ _ Hin) as [-> Hpc].
    pose proof (sound_after pre (start c0) eq_refl) as Hsound.
    unfold pc_sound in Hsound. rewrite Hpc in Hsound.
    apply andb_true_iff in Hsound as [Hsound Hcur].
    apply andb_true_iff in Hsound as [_ Hlin].
    destruct lin as [l|]; [|discriminate]. destruct cur as [c|]; [|discriminate].
    now exists l, c.
  - intros pre mid2 mid3 lin Hpc Hout H2 H3.
    set (s := threads_after pre (start c0)) in *.
    pose proof (sound_after pre (start c0) eq_refl) as Hsound.
    fold s in Hsound. unfold pc_sound in Hsound. rewrite Hpc in Hsound.
    apply andb_true_iff in Hsound as [Hsound _].
    apply andb_true_iff in Hsound as [_ Hreq]. apply negb_true_iff in Hreq.
    assert (Hang : exists ang, required_vel_angular (tnode s) = Some ang).
    { destruct (pair_outside_window c0 pre Hout) as [H|(msg & _ & H)];
        fold s in H; unfold target_fields, target_of_msg in H;
        injection H as Hl Ha.
      - rewrite Hl in Hreq. discriminate.
      - eexists; exact Ha. }
    destruct Hang as [ang Hang].
    set (s3 := fst (act MainStep s)).
    assert (Hpc3 : tmain s3 = AtArgCurrent lin (Some ang)).
    { unfold s3. rewrite (main_reads_angular _ _ Hpc). cbn. now rewrite Hang. }
    exists ang, (current_vel_linear (tnode (threads_after mid2 s3))).
    replace (threads_after (pre ++ MainStep :: mid2 ++ MainStep :: mid3) (start c0))
      with (threads_after (mid2 ++ MainStep :: mid3) s3).
    + exact (call_after_angular_read s3 _ _ mid2 mid3 Hpc3 H2 H3).
    + unfold s3, s. now rewrite (threads_after_app pre), threads_after_cons.
Qed.

(** ** More under interleaving *)

(** The current velocity a [control] call receives is the value of the
    latest [/current_velocity] message taken before the main thread read the
    field for that call (line 85): messages taken earlier are overwritten,
    messages taken after the read come too late for this call. *)
Theorem control_sees_latest_current_velocity
        (c0 : ControllerState) (pre mid : list Action) (lin ang : option float) :
  tmain (threads_after pre (start c0)) = AtArgCurrent lin ang ->
  forallb (fun a => negb (is_main a)) mid = true ->
  snd (act MainStep (threads_after (pre ++ MainStep :: mid) (start c0))) =
  [EvControl lin ang (latest_current_taken None pre)].
Proof.
  intros Hpc Hmid.
  rewrite threads_after_app.
  change (MainStep :: mid) with ([] ++ MainStep :: mid).
  rewrite (call_after_angular_read _ lin ang [] mid Hpc eq_refl Hmid).
  rewrite threads_after_nil. now rewrite current_value_taken.
Qed.

(** A disable stops the loop after at most the turn in progress.  From any
    state in which [dbw_enabled] is false, as long as no enable message
    carrying true is taken, the node makes at most one more [control] call,
    publishes at most one more message per channel and sleeps at most once:
    those of a turn already past its gate test.  If the main thread is not
    inside such a turn, it makes none at all. *)
Theorem disable_stops_after_turn_in_progress (sched : list Action) (s : Threads) :
  dbw_enabled (tnode s) = false ->
  existsb is_enable_recv_true sched = false ->
  ((count_events is_control (effects sched s) <= 1)%nat
   /\ (count_events is_throttle (effects sched s) <= 1)%nat
   /\ (count_events is_steering (effects sched s) <= 1)%nat
   /\ (count_events is_brake (effects sched s) <= 1)%nat
   /\ (count_events is_sleep (effects sched s) <= 1)%nat)
  /\ (in_turn (tmain s) = false ->
      count_events is_control (effects sched s) = 0%nat
      /\ count_events is_throttle (effects sched s) = 0%nat
      /\ count_events is_steering (effects sched s) = 0%nat
      /\ count_events is_brake (effects sched s) = 0%nat
      /\ count_events is_sleep (effects sched s) = 0%nat).
Proof.
  intros Hoff Hnone.
  destruct (owed_after sched s Hoff Hnone) as (Hc & Ht & Hs & Hb & Hz).
  split.
  - destruct (tmain s); cbn in *; repeat split; lia.
  - intros Hout. destruct (tmain s); cbn in *; try discriminate;
      repeat split; lia.
Qed.

Lemma reset_piece (s : Threads) :
  In EvReset (snd (act EnableStep s)) ->
  dbw_enabled (tnode (fst (act EnableStep s))) = false
  /\ tmain (fst (act EnableStep s)) = tmain s
  /\ controller (tnode (fst (act EnableStep s))) =
     controller_reset (controller (tnode s)).
Proof.
  act_cases EnableStep s; intros Hin;
    repeat (destruct Hin as [Hin|Hin]; try discriminate);
    try destruct Hin; now repeat split.
Qed.

(** When a disable callback resets the controller while the main thread is
    not inside a turn that has passed its gate test, no [control] call is
    made until an enable message carrying true is taken; and as long as no
    [control] call has been made since, the controller is one that [reset]
    has just returned, so the first call after re-enabling runs on a freshly
    reset controller. *)
Theorem controller_fresh_after_disable (s : Threads) :
  In EvReset (snd (act EnableStep s)) ->
  in_turn (tmain s) = false ->
  (forall mid : list Action,
      existsb is_enable_recv_true mid = false ->
      count_events is_control (effects mid (fst (act EnableStep s))) = 0%nat)
  /\ (forall mid : list Action,
         count_events is_control (effects mid (fst (act EnableStep s))) = 0%nat ->
         exists c : ControllerState,
           controller (tnode (threads_after mid (fst (act EnableStep s)))) =
           controller_reset c).
Proof.
  intros Hreset Hout.
  destruct (reset_piece s Hreset) as (Hoff & Hpc & Hctl).
  split.
  - intros mid Hnone.
    destruct (owed_after mid _ Hoff Hnone) as (Hc & _).
    rewrite Hpc in Hc. destruct (tmain s); cbn in *; try discriminate; lia.
  - intros mid Hquiet.
    rewrite controller_replay_interleaved, Hctl.
    now apply replay_without_control.
Qed.

End Node.

Arguments DBWNode_init {ControllerState} c.
Arguments boot {ControllerState Exn} c.
Arguments node {ControllerState Exn} s.
Arguments main {ControllerState Exn} s.
Arguments is_shutdown {ControllerState Exn} s.
Arguments mkSystem {ControllerState Exn} node is_shutdown main.
Arguments InLoop {Exn} rate.
Arguments Uncaught {Exn} e.
Arguments dbw_enabled {ControllerState} d.
Arguments required_vel_linear {ControllerState} d.
Arguments required_vel_angular {ControllerState} d.
Arguments current_vel_linear {ControllerState} d.
Arguments set_controller {ControllerState} v n.
Arguments controller {ControllerState} d.
Arguments step {ControllerState Exn} controller_control controller_reset i sys.
Arguments run {ControllerState Exn} controller_control controller_reset sched sys.
Arguments state_after {ControllerState Exn} controller_control controller_reset sched sys.
Arguments trace {ControllerState Exn} controller_control controller_reset sched sys.

(** ** Concrete runs with the test doubles *)

(** The stub node of the spec's test: enabled, target 5.0 / 0.0, measured
    5.0; one tick publishes throttle 0.0, steering 0.0 and brake 0.0. *)
Example ready_tick_trace :
  trace Stub.control Stub.reset (ready_inputs ++ [Iterate]) (boot 0%nat) =
  [ EvLogDbwEnabled true;
    EvControl (Some 5%float) (Some 0%float) (Some 5%float);
    EvThrottle (ThrottleCmd.mk true ThrottleCmd.CMD_PERCENT 0%float);
    EvSteering (SteeringCmd.mk true 0%float);
    EvBrake (BrakeCmd.mk true BrakeCmd.CMD_TORQUE 0%float);
    EvSleep 50%float ].
Proof. reflexivity. Qed.

(** C2 as stated fails.  Enable, disable, disable again: the signal falls
    once, yet [Controller.reset()] is called twice. *)
Lemma repeated_disable_resets_again :
  falling_edges false (enable_values noisy_disable) = 1%nat
  /\ count_resets (trace Stub.control Stub.reset noisy_disable
                         (boot (Exn := Stub.Fault) 0%nat)) = 2%nat.
Proof. split; reflexivity. Qed.

Lemma active_tick_publishes_control_result_witness :
  step Stub.control Stub.reset Iterate
       (state_after Stub.control Stub.reset ready_inputs
                    (boot (Exn := Stub.Fault) 0%nat))
  = (mkSystem
       (set_controller 1%nat
          (node (state_after Stub.control Stub.reset ready_inputs
                             (boot (Exn := Stub.Fault) 0%nat))))
       false (InLoop 50%float),
     [ EvControl (Some 5%float) (Some 0%float) (Some 5%float);
       EvThrottle (ThrottleCmd.mk true ThrottleCmd.CMD_PERCENT 0%float);
       EvSteering (SteeringCmd.mk true 0%float);
       EvBrake (BrakeCmd.mk true BrakeCmd.CMD_TORQUE 0%float);
       EvSleep 50%float ]).
Proof.
  apply (active_tick_publishes_control_result
           nat Stub.Fault Stub.control Stub.reset
           (state_after Stub.control Stub.reset ready_inputs (boot 0%nat))
           50%float 1%nat 0%float 0%float 0%float); reflexivity.
Defined.

Lemma control_fault_is_fail_stop_witness :
  step Stub.faulty_control Stub.reset Iterate
       (state_after Stub.faulty_control Stub.reset ready_inputs (boot 0%nat))
  = (mkSystem
       (set_controller 1%nat
          (node (state_after Stub.faulty_control Stub.reset ready_inputs
                             (boot (Exn := Stub.Fault) 0%nat))))
       false (Uncaught Stub.ControlFault),
     [ EvControl (Some 5%float) (Some 0%float) (Some 5%float) ])
  /\ forall later : list Input,
      commands (trace Stub.faulty_control Stub.reset (Iterate :: later)
                      (state_after Stub.faulty_control Stub.reset ready_inputs
                                   (boot 0%nat))) = []
      /\ main (state_after Stub.faulty_control Stub.reset (Iterate :: later)
                           (state_after Stub.faulty_control Stub.reset ready_inputs
                                        (boot 0%nat)))
         = Uncaught Stub.ControlFault.
Proof.
  apply (control_fault_is_fail_stop
           nat Stub.Fault Stub.faulty_control Stub.reset
           (state_after Stub.faulty_control Stub.reset ready_inputs (boot 0%nat))
           50%float 1%nat Stub.ControlFault); reflexivity.
Defined.

Lemma gate_disabled_until_enabled_witness :
  dbw_enabled (node (state_after Stub.control Stub.reset unauthorized_inputs
                                 (boot (Exn := Stub.Fault) 0%nat))) = false
  /\ commands (trace Stub.control Stub.reset unauthorized_inputs
                     (boot (Exn := Stub.Fault) 0%nat)) = [].
Proof.
  apply (proj2 (gate_disabled_until_enabled
                  nat Stub.Fault Stub.control Stub.reset 0%nat)
               unauthorized_inputs).
  reflexivity.
Defined.

(** ** More concrete runs *)

Lemma veer_log_on_nan_and_repeat_witness :
  snd (twist_cmd_cb nat Stub.Fault (velocity_msg 5%float nan)
                    (DBWNode_init 0%nat))
  = [ EvLogVeer (Some nan) 0 ]
  /\ count_required_vel_angular nat
       (snd (fst (twist_cmd_cb nat Stub.Fault (velocity_msg 5%float nan)
                               (DBWNode_init 0%nat)))) = 1.
Proof.
  apply (proj1 (veer_log_on_nan_and_repeat
                  nat Stub.Fault (velocity_msg 5%float nan) (DBWNode_init 0%nat))).
  reflexivity.
Defined.

Lemma published_messages_are_enabled_witness :
  ThrottleCmd.enable (ThrottleCmd.mk true ThrottleCmd.CMD_PERCENT 0%float) = true
  /\ ThrottleCmd.pedal_cmd_type (ThrottleCmd.mk true ThrottleCmd.CMD_PERCENT 0%float)
     = ThrottleCmd.CMD_PERCENT.
Proof.
  apply (published_messages_are_enabled
           nat Stub.Fault Stub.control Stub.reset
           (ready_inputs ++ [Iterate]) (boot 0%nat)
           (EvThrottle (ThrottleCmd.mk true ThrottleCmd.CMD_PERCENT 0%float))).
  simpl. right. right. left. reflexivity.
Defined.

Lemma every_sleep_is_at_sampling_rate_witness :
  50%float = 50%float
  /\ sampling_rate nat
       (node (state_after Stub.control Stub.reset (ready_inputs ++ [Iterate])
                          (boot (Exn := Stub.Fault) 0%nat))) = 50%float.
Proof.
  apply (every_sleep_is_at_sampling_rate
           nat Stub.Fault Stub.control Stub.reset 0%nat
           (ready_inputs ++ [Iterate]) 50%float).
  simpl. do 5 right. left. reflexivity.
Defined.

(** ** Construction: the controller [__init__] builds (lines 47-59) *)

Module Construction.
Import String.
Local Open Scope string_scope.
#[local] Set Warnings "-inexact-float".

Section Init.

(** What a ROS parameter can hold, with the integer and float literals the
    source uses as defaults; [rospy.get_param name default] is whatever the
    parameter server answers. *)
Variable ParamValue : Type.
Variable of_int : Z -> ParamValue.
Variable of_float : float -> ParamValue.
Variable get_param : string -> ParamValue -> ParamValue.

(** The keyword arguments of [Controller(...)]. *)
Record ControllerArgs : Type := mkControllerArgs {
  sampling_rate_arg : float;
  decel_limit : ParamValue;
  accel_limit : ParamValue;
  brake_deadband : ParamValue;
  vehicle_mass : ParamValue;
  fuel_capacity : ParamValue;
  wheel_radius : ParamValue;
  wheel_base : ParamValue;
  steer_ratio : ParamValue;
  max_lat_accel : ParamValue;
  max_steer_angle : ParamValue
}.

Variable ControllerState : Type.
Variable Exn : Type.
Variable Controller_new : ControllerArgs -> ControllerState.

(** The parameters [__init__] asks for, each with its default. *)
Definition requested_params : list (string * ParamValue) :=
  [ ("~decel_limit", of_int (-5));
    ("~accel_limit", of_float 1%float);
    ("~brake_deadband", of_float 0.1%float);
    ("~vehicle_mass", of_float 1736.35%float);
    ("~fuel_capacity", of_float 13.5%float);
    ("~wheel_radius", of_float 0.2413%float);
    ("~wheel_base", of_float 2.8498%float);
    ("~steer_ratio", of_float 14.8%float);
    ("~max_lat_accel", of_float 3%float);
    ("~max_steer_angle", of_float 8%float) ].

(** Lines 49-59; [sampling_rate] is the field set at line 47. *)
Definition controller_kwargs : ControllerArgs :=
  {| sampling_rate_arg := sampling_rate unit (DBWNode_init tt);
     decel_limit := get_param "~decel_limit" (of_int (-5));
     accel_limit := get_param "~accel_limit" (of_float 1%float);
     brake_deadband := get_param "~brake_deadband" (of_float 0.1%float);
     vehicle_mass := get_param "~vehicle_mass" (of_float 1736.35%float);
     fuel_capacity := get_param "~fuel_capacity" (of_float 13.5%float);
     wheel_radius := get_param "~wheel_radius" (of_float 0.2413%float);
     wheel_base := get_param "~wheel_base" (of_float 2.8498%float);
     steer_ratio := get_param "~steer_ratio" (of_float 14.8%float);
     max_lat_accel := get_param "~max_lat_accel" (of_float 3%float);
     max_steer_angle := get_param "~max_steer_angle" (of_float 8%float) |}.

(** The node [DBWNode()] leaves running: fields, controller, loop entered. *)
Definition DBWNode_new : System ControllerState Exn :=
  boot (Controller_new controller_kwargs).

End Init.

(** The constructed node depends on the parameter server through the ten
    private names [__init__] asks for and nothing else: two servers that
    answer those ten requests alike give the same node.  The sampling rate
    is not among them: the controller is always built with the 50 Hz the
    loop is paced at. *)
Theorem construction_reads_ten_parameters
        (ParamValue : Type) (of_int : Z -> ParamValue) (of_float : float -> ParamValue)
        (ControllerState Exn : Type)
        (Controller_new : ControllerArgs ParamValue -> ControllerState)
        (server1 server2 : string -> ParamValue -> ParamValue) :
  (forall name default,
      In (name, default) (requested_params ParamValue of_int of_float) ->
      server1 name default = server2 name default) ->
  DBWNode_new ParamValue of_int of_float server1 ControllerState Exn Controller_new =
  DBWNode_new ParamValue of_int of_float server2 ControllerState Exn Controller_new
  /\ main (DBWNode_new ParamValue of_int of_float server1
                       ControllerState Exn Controller_new)
     = InLoop (sampling_rate_arg ParamValue
                 (controller_kwargs ParamValue of_int of_float server1))
  /\ sampling_rate_arg ParamValue
       (controller_kwargs ParamValue of_int of_float server1) = 50%float.
Proof.
  intros Hsame. split; [|split; reflexivity].
  unfold DBWNode_new, controller_kwargs.
  rewrite !Hsame; [reflexivity| simpl; tauto ..].
Qed.

(** A server with nothing set, and one where an unrelated name is set. *)
Definition empty_server (name : string) (default : Z + float) : Z + float :=
  default.

Definition other_server (name : string) (default : Z + float) : Z + float :=
  if String.eqb name "~unrelated" then inl 0 else default.

Lemma construction_reads_ten_parameters_witness :
  DBWNode_new (Z + float) inl inr empty_server
              (ControllerArgs (Z + float)) Stub.Fault (fun args => args)
  = DBWNode_new (Z + float) inl inr other_server
                (ControllerArgs (Z + float)) Stub.Fault (fun args => args)
  /\ main (DBWNode_new (Z + float) inl inr empty_server
                       (ControllerArgs (Z + float)) Stub.Fault (fun args => args))
     = InLoop (sampling_rate_arg (Z + float)
                 (controller_kwargs (Z + float) inl inr empty_server))
  /\ sampling_rate_arg (Z + float)
       (controller_kwargs (Z + float) inl inr empty_server) = 50%float.
Proof.
  apply (construction_reads_ten_parameters
           (Z + float) inl inr (ControllerArgs (Z + float)) Stub.Fault
           (fun args => args) empty_server other_server).
  intros name default Hin. simpl in Hin.
  repeat (destruct Hin as [Heq|Hin]; [now inversion Heq|]).
  destruct Hin.
Defined.

End Construction.

(** ** Concrete interleavings *)

Arguments start {ControllerState Exn} c.
Arguments tnode {ControllerState Exn} t.
Arguments tmain {ControllerState Exn} t.
Arguments ttwist {ControllerState Exn} t.
Arguments act {ControllerState Exn} controller_control controller_reset a s.
Arguments interleave {ControllerState Exn} controller_control controller_reset sched s.
Arguments threads_after {ControllerState Exn} controller_control controller_reset sched s.
Arguments effects {ControllerState Exn} controller_control controller_reset sched s.
Arguments stays_in_turn {ControllerState Exn} controller_control controller_reset acts s.
Arguments in_turn {Exn} pc.
Arguments AtGuardEnabled {Exn}.
Arguments AtArgLinear {Exn}.
Arguments AtArgAngular {Exn} lin.
Arguments AtArgCurrent {Exn} lin ang.

(** The callbacks of the ready node run to completion: enabled, target
    5.0 / 0.0, measured 5.0. *)
Definition ready_threads : list Action :=
  [ EnableRecv (std_msgs.mkBool true); EnableStep; EnableStep;
    TwistRecv (velocity_msg 5%float 0%float); TwistStep; TwistStep;
    CurrentRecv (velocity_msg 5%float 0%float) ].

(** The loop passes its gate test; then the disable callback runs to its
    end, reset included; then the loop goes on to its control call. *)
Definition disable_inside_turn : list Action :=
  ready_threads
  ++ [ MainStep; MainStep; MainStep; MainStep ]
  ++ [ EnableRecv (std_msgs.mkBool false); EnableStep; EnableStep ]
  ++ [ MainStep; MainStep; MainStep; MainStep ].

(** A second target message, 7.0 / 1.0, is taken and has run line 123 only
    when the loop goes through a whole turn up to its control call. *)
Definition retarget_inside_callback : list Action :=
  ready_threads
  ++ [ TwistRecv (velocity_msg 7%float 1%float) ]
  ++ repeat MainStep 7.

(** The first target message has run line 123 only when the loop goes
    through a whole turn up to its control call. *)
Definition first_target_inside_callback : list Action :=
  [ EnableRecv (std_msgs.mkBool true); EnableStep; EnableStep;
    CurrentRecv (velocity_msg 5%float 0%float);
    TwistRecv (velocity_msg 5%float 0%float) ]
  ++ repeat MainStep 7.

(** C1 as stated fails.  A disable handled between the gate test of lines
    78-79 and the publish of line 87 does not stop the turn: the controller
    is reset, then called, and the throttle command goes out while
    [dbw_enabled] is False. *)
Lemma command_published_after_disable :
  effects Stub.control Stub.reset disable_inside_turn
          (start (Exn := Stub.Fault) 0%nat)
  = [ EvLogDbwEnabled true; EvLogDbwEnabled false; EvReset;
      EvControl (Some 5%float) (Some 0%float) (Some 5%float) ]
  /\ dbw_enabled (tnode (threads_after Stub.control Stub.reset disable_inside_turn
                                       (start (Exn := Stub.Fault) 0%nat))) = false
  /\ snd (act Stub.control Stub.reset MainStep
              (threads_after Stub.control Stub.reset disable_inside_turn
                             (start (Exn := Stub.Fault) 0%nat)))
     = [ EvThrottle (ThrottleCmd.mk true ThrottleCmd.CMD_PERCENT 0%float) ].
Proof. repeat split; reflexivity. Qed.

Lemma commands_only_after_gate_test_witness :
  MainStep = MainStep
  /\ exists before during,
      ready_threads ++ repeat MainStep 8 = before ++ MainStep :: during
      /\ tmain (threads_after Stub.control Stub.reset before
                              (start (Exn := Stub.Fault) 0%nat)) = AtGuardEnabled
      /\ dbw_enabled (tnode (threads_after Stub.control Stub.reset before
                                           (start (Exn := Stub.Fault) 0%nat))) = true
      /\ is_None (required_vel_linear
                    (tnode (threads_after Stub.control Stub.reset before
                                          (start (Exn := Stub.Fault) 0%nat)))) = false
      /\ is_None (current_vel_linear
                    (tnode (threads_after Stub.control Stub.reset before
                                          (start (Exn := Stub.Fault) 0%nat)))) = false
      /\ stays_in_turn Stub.control Stub.reset during
                       (threads_after Stub.control Stub.reset (before ++ [MainStep])
                                      (start (Exn := Stub.Fault) 0%nat)) = true
      /\ existsb is_enable_recv_true before = true
      /\ existsb is_twist_recv before = true
      /\ existsb is_current_recv before = true.
Proof.
  apply (proj1 (commands_only_after_gate_test
                  nat Stub.Fault Stub.control Stub.reset 0%nat)
               (ready_threads ++ repeat MainStep 8) MainStep
               (EvThrottle (ThrottleCmd.mk true ThrottleCmd.CMD_PERCENT 0%float))).
  - simpl. left. reflexivity.
  - reflexivity.
Defined.

(** C6 as stated fails.  With the targets 5.0 / 0.0 in place, a message
    7.0 / 1.0 whose callback stands between lines 123 and 124 gives
    [control] the linear target of the new message with the angular target
    of the old one. *)
Lemma torn_target_pair_reaches_control :
  snd (act Stub.control Stub.reset MainStep
           (threads_after Stub.control Stub.reset retarget_inside_callback
                          (start (Exn := Stub.Fault) 0%nat)))
  = [ EvControl (Some 7%float) (Some 0%float) (Some 5%float) ].
Proof. reflexivity. Qed.

Lemma target_pair_from_one_message_outside_window_witness :
  exists (msg : geometry_msgs.TwistStamped) (cur : option float),
    In (TwistRecv msg) (ready_threads ++ repeat MainStep 4)
    /\ snd (act Stub.control Stub.reset MainStep
                (threads_after Stub.control Stub.reset
                   ((ready_threads ++ repeat MainStep 4)
                      ++ MainStep :: [CurrentRecv (velocity_msg 6%float 0%float)]
                      ++ MainStep :: [TwistRecv (velocity_msg 7%float 1%float)]
                      ++ MainStep :: [])
                   (start (Exn := Stub.Fault) 0%nat)))
       = [ EvControl (fst (target_of_msg msg)) (snd (target_of_msg msg)) cur ].
Proof.
  apply (target_pair_from_one_message_outside_window
           nat Stub.Fault Stub.control Stub.reset 0%nat
           (ready_threads ++ repeat MainStep 4)
           [CurrentRecv (velocity_msg 6%float 0%float)]
           [TwistRecv (velocity_msg 7%float 1%float)] []); reflexivity.
Defined.

(** C9 as stated fails.  While the first target callback stands between
    lines 123 and 124 the linear target is set and the angular target is
    still None; the test of lines 78-79 passes and [control] receives None
    as angular target. *)
Lemma none_angular_reaches_control :
  required_vel_linear
    (tnode (threads_after Stub.control Stub.reset first_target_inside_callback
                          (start (Exn := Stub.Fault) 0%nat))) = Some 5%float
  /\ required_vel_angular
       (tnode (threads_after Stub.control Stub.reset first_target_inside_callback
                             (start (Exn := Stub.Fault) 0%nat))) = None
  /\ snd (act Stub.control Stub.reset MainStep
              (threads_after Stub.control Stub.reset first_target_inside_callback
                             (start (Exn := Stub.Fault) 0%nat)))
     = [ EvControl (Some 5%float) None (Some 5%float) ].
Proof. repeat split; reflexivity. Qed.

Lemma angular_target_set_outside_write_window_witness :
  exists (ang : float) (cur : option float),
    snd (act Stub.control Stub.reset MainStep
             (threads_after Stub.control Stub.reset
                ((ready_threads ++ repeat MainStep 5)
                   ++ MainStep :: [TwistRecv (velocity_msg 7%float 1%float)]
                   ++ MainStep :: [])
                (start (Exn := Stub.Fault) 0%nat)))
    = [ EvControl (Some 5%float) (Some ang) cur ].
Proof.
  apply (proj2 (proj2 (angular_target_set_outside_write_window
                         nat Stub.Fault Stub.control Stub.reset 0%nat))
               (ready_threads ++ repeat MainStep 5)
               [TwistRecv (velocity_msg 7%float 1%float)] [] (Some 5%float));
    reflexivity.
Defined.

Lemma control_pair_from_latest_message_witness :
  Iterate = Iterate
  /\ (Some 7%float, Some 1%float) = latest_target (None, None) retargeted_inputs.
Proof.
  apply (control_pair_from_latest_message
           nat Stub.Fault Stub.control Stub.reset 0%nat
           retargeted_inputs Iterate (Some 7%float) (Some 1%float) (Some 5%float)).
  simpl. left. reflexivity.
Defined.

Lemma control_sees_latest_current_velocity_witness :
  snd (act Stub.control Stub.reset MainStep
           (threads_after Stub.control Stub.reset
              ((ready_threads
                  ++ [CurrentRecv (velocity_msg 6%float 0%float)]
                  ++ repeat MainStep 6)
                 ++ MainStep :: [CurrentRecv (velocity_msg 9%float 0%float)])
              (start (Exn := Stub.Fault) 0%nat)))
  = [ EvControl (Some 5%float) (Some 0%float)
                (latest_current_taken None
                   (ready_threads
                      ++ [CurrentRecv (velocity_msg 6%float 0%float)]
                      ++ repeat MainStep 6)) ].
Proof.
  apply (control_sees_latest_current_velocity
           nat Stub.Fault Stub.control Stub.reset 0%nat
           (ready_threads
              ++ [CurrentRecv (velocity_msg 6%float 0%float)]
              ++ repeat MainStep 6)
           [CurrentRecv (velocity_msg 9%float 0%float)]
           (Some 5%float) (Some 0%float)); reflexivity.
Defined.

Lemma disable_stops_after_turn_in_progress_witness :
  (count_events is_control
     (effects Stub.control Stub.reset (repeat MainStep 20)
              (threads_after Stub.control Stub.reset
                 (ready_threads ++ repeat MainStep 4
                    ++ [EnableRecv (std_msgs.mkBool false)])
                 (start (Exn := Stub.Fault) 0%nat))) <= 1)%nat
  /\ (count_events is_throttle
        (effects Stub.control Stub.reset (repeat MainStep 20)
                 (threads_after Stub.control Stub.reset
                    (ready_threads ++ repeat MainStep 4
                       ++ [EnableRecv (std_msgs.mkBool false)])
                    (start (Exn := Stub.Fault) 0%nat))) <= 1)%nat
  /\ (count_events is_steering
        (effects Stub.control Stub.reset (repeat MainStep 20)
                 (threads_after Stub.control Stub.reset
                    (ready_threads ++ repeat MainStep 4
                       ++ [EnableRecv (std_msgs.mkBool false)])
                    (start (Exn := Stub.Fault) 0%nat))) <= 1)%nat
  /\ (count_events is_brake
        (effects Stub.control Stub.reset (repeat MainStep 20)
                 (threads_after Stub.control Stub.reset
                    (ready_threads ++ repeat MainStep 4
                       ++ [EnableRecv (std_msgs.mkBool false)])
                    (start (Exn := Stub.Fault) 0%nat))) <= 1)%nat
  /\ (count_events is_sleep
        (effects Stub.control Stub.reset (repeat MainStep 20)
                 (threads_after Stub.control Stub.reset
                    (ready_threads ++ repeat MainStep 4
                       ++ [EnableRecv (std_msgs.mkBool false)])
                    (start (Exn := Stub.Fault) 0%nat))) <= 1)%nat.
Proof.
  apply (proj1 (disable_stops_after_turn_in_progress
                  nat Stub.Fault Stub.control Stub.reset
                  (repeat MainStep 20)
                  (threads_after Stub.control Stub.reset
                     (ready_threads ++ repeat MainStep 4
                        ++ [EnableRecv (std_msgs.mkBool false)])
                     (start 0%nat))
                  eq_refl eq_refl)).
Defined.

Lemma controller_fresh_after_disable_witness :
  count_events is_control
    (effects Stub.control Stub.reset (repeat MainStep 9)
       (fst (act Stub.control Stub.reset EnableStep
                 (threads_after Stub.control Stub.reset
                    (ready_threads ++ repeat MainStep 12
                       ++ [EnableRecv (std_msgs.mkBool false); EnableStep])
                    (start (Exn := Stub.Fault) 0%nat))))) = 0%nat.
Proof.
  apply (proj1 (controller_fresh_after_disable
                  nat Stub.Fault Stub.control Stub.reset
                  (threads_after Stub.control Stub.reset
                     (ready_threads ++ repeat MainStep 12
                        ++ [EnableRecv (std_msgs.mkBool false); EnableStep])
                     (start 0%nat))
                  (or_introl eq_refl) eq_refl)
               (repeat MainStep 9)).
  reflexivity.
Defined.
